(** * dup-files-cmd: the indexing and duplicate-detection pipeline of [main.py]

    A shallow embedding of [human_readable_size], [size_to_bytes],
    [find_duplicates] and [index_directory], with the statements of the
    specification proved (or refuted) against it.

    Conventions.
    - A Python [str] is a [string]; the characters that the functions below
      inspect (unit letters, digits, ['/']) are ASCII.
    - A Python [int] is a [Z].  A binary64 [float] is kept as a pair
      [(m, e)] standing for [m * 2^e]; every rounding the interpreter
      performs is written out ([round53], [round_half_even]).
    - A call that can raise returns an [outcome]. *)

From Stdlib Require Import ZArith List Bool Lia Ascii String.
From Stdlib Require Import DecimalString DecimalPos.
Import ListNotations.

#[local] Open Scope string_scope.
#[local] Open Scope Z_scope.

(** ** Outcomes of Python calls *)

Inductive pyexc : Type :=
| OverflowError
| ValueError
| IndexError.

(** [Unmodelled] marks an argument outside the fragment of a builtin
    ([float()], [int()], [str.upper], SQLite's [CAST]) that is described
    here; nothing is claimed about such a call. *)
Inductive outcome (A : Type) : Type :=
| Return (a : A)
| Raise (e : pyexc)
| Unmodelled.

Arguments Return {A} a.
Arguments Raise {A} e.
Arguments Unmodelled {A}.

Definition bind {A B : Type} (x : outcome A) (k : A -> outcome B) : outcome B :=
  match x with
  | Return a => k a
  | Raise e => Raise e
  | Unmodelled => Unmodelled
  end.

Notation "x <- c ;; k" := (bind c (fun x => k))
  (at level 61, c at next level, right associativity).

(** ** Strings *)

(** [str(n)] and the ["d"] presentation of an [int]. *)
Definition str_int (z : Z) : string := NilZero.string_of_int (Z.to_int z).

Definition is_digit (c : ascii) : bool :=
  let n := nat_of_ascii c in (48 <=? n)%nat && (n <=? 57)%nat.

Definition is_ascii (c : ascii) : bool := (nat_of_ascii c <? 128)%nat.

Fixpoint string_forall (p : ascii -> bool) (s : string) : bool :=
  match s with
  | EmptyString => true
  | String c s' => p c && string_forall p s'
  end.

(** The value of a non-empty string of ASCII digits. *)
Definition digits_value (s : string) : option Z :=
  match NilZero.uint_of_string s with
  | Some d => Some (Z.of_N (N.of_uint d))
  | None => None
  end.

Definition upper_char (c : ascii) : ascii :=
  let n := nat_of_ascii c in
  if (97 <=? n)%nat && (n <=? 122)%nat then ascii_of_nat (n - 32) else c.

(** [str.upper] on ASCII text. *)
Fixpoint upper (s : string) : string :=
  match s with
  | EmptyString => EmptyString
  | String c s' => String (upper_char c) (upper s')
  end.

(** [s[:-1]] and [s[-1]] together; [None] when [s] is empty. *)
Fixpoint split_last (s : string) : option (string * ascii) :=
  match s with
  | EmptyString => None
  | String c s' =>
      match split_last s' with
      | None => Some (EmptyString, c)
      | Some (body, l) => Some (String c body, l)
      end
  end.

(** [sub in s]. *)
Fixpoint str_in (sub s : string) : bool :=
  prefix sub s ||
  match s with
  | EmptyString => false
  | String _ s' => str_in sub s'
  end.

(** [s.endswith(suffix)]. *)
Fixpoint endswith (s suffix : string) : bool :=
  (s =? suffix)%string ||
  match s with
  | EmptyString => false
  | String _ s' => endswith s' suffix
  end.

(** ** Numbers *)

(** Nearest integer to [m / d] for [d > 0], ties to the even neighbour: the
    rounding of the ["f"] presentation and of binary64 arithmetic. *)
Definition round_half_even (m d : Z) : Z :=
  let q := m / d in
  let r := m mod d in
  if 2 * r <? d then q
  else if d <? 2 * r then q + 1
  else if Z.even q then q else q + 1.

(** The binary64 value nearest to the integer [n >= 0]: [n] itself while it
    has at most 53 significant bits, otherwise [n] rounded at its 53rd bit. *)
Definition round53 (n : Z) : Z :=
  let s := Z.log2 n - 52 in
  if s <=? 0 then n else round_half_even n (2 ^ s) * 2 ^ s.

(** [float(z)] as an integer, before the range check. *)
Definition float_of_int (z : Z) : Z := Z.sgn z * round53 (Z.abs z).

(** A Python number: an [int], or the finite [float] [m * 2^e]. *)
Inductive pynum : Type :=
| PyInt (z : Z)
| PyFloat (m e : Z).

(** [x < 1024]. *)
Definition lt_1024 (x : pynum) : bool :=
  match x with
  | PyInt z => z <? 1024
  | PyFloat m e => if 0 <=? e then m * 2 ^ e <? 1024 else m <? 1024 * 2 ^ (- e)
  end.

(** [x / 1024].  An [int] is divided with one correct rounding and raises
    when the quotient leaves the binary64 range; a [float] only changes its
    exponent (the quotients met below stay far above the subnormal range). *)
Definition truediv_1024 (x : pynum) : outcome pynum :=
  match x with
  | PyInt z =>
      let m := float_of_int z in
      if 2 ^ 1034 <=? Z.abs m then Raise OverflowError
      else Return (PyFloat m (-10))
  | PyFloat m e => Return (PyFloat m (e - 10))
  end.

(** [f"{x:.0f}"]: an [int] is first converted to [float]; the digits are
    those of the nearest integer, ties to even. *)
Definition format_0f (x : pynum) : outcome string :=
  match x with
  | PyInt z =>
      let m := float_of_int z in
      if 2 ^ 1024 <=? Z.abs m then Raise OverflowError
      else Return (str_int m)
  | PyFloat m e =>
      Return (str_int (if 0 <=? e then m * 2 ^ e
                       else round_half_even m (2 ^ (- e))))
  end.

(** ** Size codec *)

(** [for unit in units: if size_bytes < 1024: return ...; size_bytes /= 1024]
    followed by the final [return f"{size_bytes:.0f}P"]. *)
Fixpoint human_readable_loop (units : list string) (size_bytes : pynum)
  : outcome string :=
  match units with
  | [] => digits <- format_0f size_bytes ;; Return (digits ++ "P")
  | unit :: rest =>
      if lt_1024 size_bytes
      then digits <- format_0f size_bytes ;; Return (digits ++ unit)
      else size_bytes' <- truediv_1024 size_bytes ;;
           human_readable_loop rest size_bytes'
  end.

Definition human_readable_size (size_bytes : Z) : outcome string :=
  human_readable_loop ["B"; "K"; "M"; "G"; "T"] (PyInt size_bytes).

(** The [units] dictionary of [size_to_bytes]. *)
Definition units (c : ascii) : option Z :=
  match c with
  | "B"%char => Some 1
  | "K"%char => Some 1024
  | "M"%char => Some (1024 ^ 2)
  | "G"%char => Some (1024 ^ 3)
  | "T"%char => Some (1024 ^ 4)
  | "P"%char => Some (1024 ^ 5)
  | _ => None
  end.

(** [int(float(body) * unit)] for a [body] of ASCII digits: the literal is
    rounded to binary64, the product with a power of two is exact, and an
    infinite product makes [int] raise.  [float("")] raises [ValueError];
    the other spellings [float] accepts are not described. *)
Definition int_float_times (body : string) (unit : Z) : outcome Z :=
  match digits_value body with
  | Some v =>
      let x := round53 v * unit in
      if 2 ^ 1024 <=? x then Raise OverflowError else Return x
  | None => if (body =? "")%string then Raise ValueError else Unmodelled
  end.

(** [int(s)] for a non-empty [s] of at most 4300 ASCII digits (beyond that
    length [int] enforces its digit limit). *)
Definition py_int (s : string) : outcome Z :=
  match digits_value s with
  | Some v => if (String.length s <=? 4300)%nat then Return v else Unmodelled
  | None => Unmodelled
  end.

Definition size_to_bytes (size_str : string) : outcome Z :=
  if negb (string_forall is_ascii size_str) then Unmodelled else
  let size_str := upper size_str in
  match split_last size_str with
  | None => Raise IndexError
  | Some (body, last) =>
      match units last with
      | Some unit => int_float_times body unit
      | None => py_int size_str
      end
  end.

(** ** Record store *)

(** A row of the [files] table; the table is the list of its rows in
    insertion (rowid) order. *)
Record FileRecord : Type := mkFileRecord {
  path : string;
  hash : string;
  size : string
}.

Definition newline : string := String (ascii_of_nat 10) EmptyString.

(** [REPLACE(s, c, '')] for a one-character pattern. *)
Fixpoint remove_char (c : ascii) (s : string) : string :=
  match s with
  | EmptyString => EmptyString
  | String a s' =>
      if Ascii.eqb a c then remove_char c s' else String a (remove_char c s')
  end.

(** [REPLACE(size, SUBSTR(size, -1), '')]: with an empty pattern [REPLACE]
    returns its first argument. *)
Definition sql_strip_unit (size : string) : string :=
  match split_last size with
  | Some (_, last) => remove_char last size
  | None => size
  end.

(** [CASE SUBSTR(size, -1) WHEN 'B' THEN 1 ... ELSE 1 END]. *)
Definition sql_unit (size : string) : Z :=
  match split_last size with
  | Some (_, "B"%char) => 1
  | Some (_, "K"%char) => 1024
  | Some (_, "M"%char) => 1048576
  | Some (_, "G"%char) => 1073741824
  | Some (_, "T"%char) => 1099511627776
  | Some (_, "P"%char) => 1125899906842624
  | _ => 1
  end.

(** [CAST(s AS FLOAT)] where the conversion is exact: the empty text is
    [0.0], a run of ASCII digits below [2^53] is its value. *)
Definition sql_cast_float (s : string) : outcome Z :=
  if (s =? "")%string then Return 0
  else match digits_value s with
       | Some v => if v <? 2 ^ 53 then Return v else Unmodelled
       | None => Unmodelled
       end.

(** A character SQLite's text functions handle as one unit: ASCII and not
    NUL (they stop at an embedded NUL). *)
Definition is_sql_text (c : ascii) : bool :=
  let n := nat_of_ascii c in (1 <=? n)%nat && (n <? 128)%nat.

(** The left side of the [WHERE] comparison, for one row whose size is
    plain ASCII text. *)
Definition sql_size_bytes (size : string) : outcome Z :=
  if negb (string_forall is_sql_text size) then Unmodelled
  else v <- sql_cast_float (sql_strip_unit size) ;; Return (v * sql_unit size).

(** [WHERE ... >= ?], row by row. *)
Fixpoint sql_where (min_size : Z) (rows : list FileRecord)
  : outcome (list FileRecord) :=
  match rows with
  | [] => Return []
  | r :: rows' =>
      v <- sql_size_bytes (size r) ;;
      rest <- sql_where min_size rows' ;;
      Return (if min_size <=? v then r :: rest else rest)
  end.

(** [GROUP BY hash]: one group per distinct hash, holding its rows in rowid
    order.  SQL fixes no order between the groups; they are listed in the
    order of the last row of each hash and no statement below depends on
    it. *)
Definition sql_group_by_hash (rows : list FileRecord)
  : list (string * list FileRecord) :=
  map (fun h => (h, filter (fun r => (hash r =? h)%string) rows))
      (nodup string_dec (map hash rows)).

(** [SELECT hash, GROUP_CONCAT(path, '\n') ... GROUP BY hash
    HAVING COUNT( * ) > 1].  The paths of a group are concatenated in the
    order its rows are visited, the rowid order. *)
Definition select_duplicates (rows : list FileRecord) : list (string * string) :=
  map (fun g => (fst g, concat newline (map path (snd g))))
      (filter (fun g => (1 <? List.length (snd g))%nat) (sql_group_by_hash rows)).

(** A bound parameter must fit SQLite's 64-bit INTEGER. *)
Definition fits_int64 (z : Z) : bool := (- 2 ^ 63 <=? z) && (z <? 2 ^ 63).

(** [if min_size:] is false for [None] and for [0]. *)
Definition find_duplicates (conn : list FileRecord) (min_size : option Z)
  : outcome (list (string * string)) :=
  match min_size with
  | Some m =>
      if m =? 0 then Return (select_duplicates conn)
      else if fits_int64 m
           then rows <- sql_where m conn ;; Return (select_duplicates rows)
           else Raise OverflowError
  | None => Return (select_duplicates conn)
  end.

(** The [--find-dupes] branch of [main]:
    [size_to_bytes(args.min_size) if args.min_size else None]. *)
Definition main_find_dupes (conn : list FileRecord) (min_size : option string)
  : outcome (list (string * string)) :=
  min_size_bytes <-
    match min_size with
    | Some s => if (s =? "")%string then Return None
                else v <- size_to_bytes s ;; Return (Some v)
    | None => Return None
    end ;;
  find_duplicates conn min_size_bytes.

(** ** Indexer *)

(** What the run observes of one regular file: its name in the directory
    listing, the result of reading it, and the result of [os.path.getsize]
    ([None] when the call raises). *)
Inductive read_result : Type :=
| Digest (hexdigest : string)
| ReadError (message : string).

Record file : Type := mkFile {
  file_name : string;
  file_read : read_result;
  file_stat : option Z
}.

(** A directory tree as [os.walk] sees it.  [Unlisted] is an entry that is
    named among its parent's directories and yields nothing: a directory
    whose listing fails, or a symbolic link to a directory. *)
Inductive dirtree : Type :=
| Dir (files : list file) (subdirs : forest)
| Unlisted
with forest : Type :=
| FNil
| FCons (name : string) (d : dirtree) (rest : forest).

Fixpoint forest_names (f : forest) : list string :=
  match f with
  | FNil => []
  | FCons name _ rest => name :: forest_names rest
  end.

(** [os.path.join(a, b)] of [posixpath]. *)
Definition os_path_join (a b : string) : string :=
  if prefix "/" b then b
  else if (a =? "")%string || endswith a "/" then a ++ b
  else a ++ "/" ++ b.

(** [os.walk(top)], top-down: the triples [(root, dirs, files)]. *)
Fixpoint os_walk (top : string) (t : dirtree)
  : list (string * list string * list file) :=
  match t with
  | Unlisted => []
  | Dir files subdirs =>
      (top, forest_names subdirs, files) :: walk_forest top subdirs
  end
with walk_forest (top : string) (f : forest)
  : list (string * list string * list file) :=
  match f with
  | FNil => []
  | FCons name d rest =>
      os_walk (os_path_join top name) d ++ walk_forest top rest
  end.

(** [hash_file]: the digest, or [None] after printing the error. *)
Definition hash_file (file_path : string) (f : file)
  : option string * list string :=
  match file_read f with
  | Digest h => (Some h, [])
  | ReadError e => (None, ["Error reading " ++ file_path ++ ": " ++ e])
  end.

(** The state threaded through a run: the table behind [conn], the counter
    [file_count], and the lines printed so far. *)
Record run_state : Type := mkState {
  db : list FileRecord;
  file_count : Z;
  stdout : list string
}.

Definition print (line : string) (st : run_state) : run_state :=
  mkState (db st) (file_count st) (stdout st ++ [line]).

(** [try: size_hr = human_readable_size(os.path.getsize(file_path))
    except Exception: size_hr = "0B"]. *)
Definition size_hr_of (f : file) : string :=
  match file_stat f with
  | Some size_bytes =>
      match human_readable_size size_bytes with
      | Return s => s
      | _ => "0B"
      end
  | None => "0B"
  end.

(** Lines 88-98: hash the file, encode its size, and insert the row when
    [file_hash] is truthy. *)
Definition store_file (file_path : string) (st : run_state) (f : file)
  : run_state :=
  let (file_hash, printed) := hash_file file_path f in
  let st := mkState (db st) (file_count st) (stdout st ++ printed) in
  let size_hr := size_hr_of f in
  match file_hash with
  | Some h =>
      if (h =? "")%string then st
      else
        let n := file_count st + 1 in
        let st := mkState (db st ++ [mkFileRecord file_path h size_hr])
                          n (stdout st) in
        if n mod 200 =? 0
        then print ("Processed " ++ str_int n ++ " files...") st
        else st
  | None => st
  end.

(** The body of [for file in files]. *)
Definition index_file (skip_types include_files : list string)
  (root : string) (st : run_state) (f : file) : run_state :=
  let file_path := os_path_join root (file_name f) in
  if negb (Nat.eqb (List.length include_files) 0)
     && negb (existsb (String.eqb file_path) include_files)
  then st
  else if existsb (endswith (file_name f)) skip_types then st
  else store_file file_path st f.

(** The body of [for root, dirs, files in os.walk(base_dir)]. *)
Definition index_entry (skip_types exclude_dirs include_files : list string)
  (verbose : bool) (st : run_state)
  (entry : string * list string * list file) : run_state :=
  let '(root, _, files) := entry in
  if existsb (fun excl => str_in excl root) exclude_dirs then st
  else
    let st := if verbose then print ("Scanning directory: " ++ root) st
              else st in
    fold_left (index_file skip_types include_files root) files st.

(** The outer loop over a sequence of walk triples. *)
Definition index_entries (skip_types exclude_dirs include_files : list string)
  (verbose : bool) (entries : list (string * list string * list file))
  (st : run_state) : run_state :=
  fold_left (index_entry skip_types exclude_dirs include_files verbose)
            entries st.

(** What a Python call hands back to its caller. *)
Inductive pyvalue : Type :=
| PyNone
| PyIntValue (z : Z).

(** [index_directory]: the final state and the returned value (the function
    has no [return] statement). *)
Definition index_directory (base_dir : string) (fs : dirtree)
  (conn : list FileRecord)
  (skip_types exclude_dirs include_files : list string) (verbose : bool)
  : run_state * pyvalue :=
  let st := mkState conn 0 [] in
  let st := index_entries skip_types exclude_dirs include_files verbose
                          (os_walk base_dir fs) st in
  let st := print ("Total files processed: " ++ str_int (file_count st)) st in
  (st, PyNone).

(** ** Report and configuration bootstrap *)

(** Lines 170-173 of [main]: what the report prints, one entry per call of
    [print]. *)
Definition main_report (conn : list FileRecord) (min_size : option string)
  : outcome (list string) :=
  duplicates <- main_find_dupes conn min_size ;;
  Return ((match duplicates with
           | [] => ["No duplicates found."]
           | _ => []
           end
           ++ map (fun g => (newline ++ "Duplicate Hash: " ++ fst g ++ newline
                             ++ "Paths:" ++ newline ++ snd g)%string)
                  duplicates)%list).

Definition quote : string := String (ascii_of_nat 34) EmptyString.

(** [json.dump(content, f, indent=2)] for a list of strings that need no
    escape. *)
Definition json_dump_list (content : list string) : string :=
  match content with
  | [] => "[]"
  | _ => "[" ++ newline ++ "  "
         ++ concat ("," ++ newline ++ "  ")
                   (map (fun s => quote ++ s ++ quote) content)
         ++ newline ++ "]"
  end.

(** The [defaults] dictionary of [create_default_config], in insertion
    order. *)
Definition defaults : list (string * list string) :=
  [("skip_types.json", []);
   ("exclude_dirs.json", ["anaconda3"; "venv"]);
   ("include_files.json", [])].

(** The files of [CONFIG_DIR], name and text; the first binding of a name
    is the file. *)
Fixpoint read_file (name : string) (files : list (string * string))
  : option string :=
  match files with
  | [] => None
  | (n, text) :: rest => if (n =? name)%string then Some text
                         else read_file name rest
  end.

(** The body of [for filename, content in defaults.items()]. *)
Definition create_default_file (config_dir : string)
  (st : list (string * string) * list string)
  (entry : string * list string) : list (string * string) * list string :=
  let (files, out) := st in
  let (filename, content) := entry in
  match read_file filename files with
  | Some _ => (files, out)
  | None =>
      ((filename, json_dump_list content) :: files,
       (out ++ [("Created default config: " ++ config_dir ++ "/"
                 ++ filename)%string])%list)
  end.

(** [create_default_config]: the files of [CONFIG_DIR] afterwards and the
    lines printed. *)
Definition create_default_config (config_dir : string)
  (files : list (string * string)) : list (string * string) * list string :=
  fold_left (create_default_file config_dir) defaults (files, []).

(** ** Vocabulary of the statements *)

(** The rows recorded for hash [h], in insertion order. *)
Definition rows_with (h : string) (rows : list FileRecord) : list FileRecord :=
  filter (fun r => (hash r =? h)%string) rows.

(** The stored size is in the fragment where [sql_size_bytes] is described. *)
Definition size_modelled (r : FileRecord) : bool :=
  match sql_size_bytes (size r) with
  | Return _ => true
  | _ => false
  end.

(** The row passes [WHERE ... >= min_size]. *)
Definition size_at_least (min_size : Z) (r : FileRecord) : bool :=
  match sql_size_bytes (size r) with
  | Return v => min_size <=? v
  | _ => false
  end.

(** The reading of the threshold under which one large member keeps the
    whole group of a hash with two or more rows. *)
Definition retains_iff_some_member (conn : list FileRecord) (min_size : Z)
  : Prop :=
  exists groups,
    find_duplicates conn (Some min_size) = Return groups /\
    forall h,
      (exists paths, In (h, paths) groups) <->
      (2 <= List.length (rows_with h conn))%nat /\
      exists r, In r (rows_with h conn) /\ size_at_least min_size r = true.

(** The reading under which [index_directory] hands the number of rows it
    inserted back to its caller. *)
Definition returns_persisted_count (base_dir : string) (fs : dirtree)
  (conn : list FileRecord)
  (skip_types exclude_dirs include_files : list string) (verbose : bool)
  : Prop :=
  let r := index_directory base_dir fs conn skip_types exclude_dirs
                           include_files verbose in
  exists added,
    db (fst r) = (conn ++ added)%list /\
    snd r = PyIntValue (Z.of_nat (List.length added)).

(** No directory name of the tree is an absolute path (a directory listing
    never returns a name with a ['/']). *)
Fixpoint relative_names (t : dirtree) : bool :=
  match t with
  | Unlisted => true
  | Dir _ subdirs => relative_forest subdirs
  end
with relative_forest (f : forest) : bool :=
  match f with
  | FNil => true
  | FCons name d rest =>
      negb (prefix "/" name) && relative_names d && relative_forest rest
  end.

(** [subtree_at top t d sub]: walking [t] from [top] meets the directory
    [sub] under the path [d]. *)
Inductive subtree_at : string -> dirtree -> string -> dirtree -> Prop :=
| subtree_here : forall top t, subtree_at top t top t
| subtree_below : forall top files subdirs d sub,
    forest_subtree_at top subdirs d sub ->
    subtree_at top (Dir files subdirs) d sub
with forest_subtree_at : string -> forest -> string -> dirtree -> Prop :=
| subtree_first : forall top name t rest d sub,
    subtree_at (os_path_join top name) t d sub ->
    forest_subtree_at top (FCons name t rest) d sub
| subtree_later : forall top name t rest d sub,
    forest_subtree_at top rest d sub ->
    forest_subtree_at top (FCons name t rest) d sub.

(** Two states with the same table and counter (the printed lines may
    differ). *)
Definition same_store (st st' : run_state) : Prop :=
  db st = db st' /\ file_count st = file_count st'.

(** [st'] is [st] after inserting rows that all satisfy [P], counted. *)
Definition extends (P : FileRecord -> Prop) (st st' : run_state) : Prop :=
  exists added,
    db st' = (db st ++ added)%list /\
    file_count st' = file_count st + Z.of_nat (List.length added) /\
    Forall P added.

(** The row that [store_file] inserts for [f] read under [root] with
    digest [h]. *)
Definition row_of (root : string) (f : file) (h : string) : FileRecord :=
  mkFileRecord (os_path_join root (file_name f)) h (size_hr_of f).

(** [f], listed under [root], passes the two per-file tests. *)
Definition admitted (skip_types include_files : list string)
  (root : string) (f : file) : Prop :=
  (include_files = [] \/ In (os_path_join root (file_name f)) include_files) /\
  (forall ext, In ext skip_types -> endswith (file_name f) ext = false).

(** [r] is the row of a file that is listed in a triple of [entries] whose
    root matches no exclusion, that passes the per-file tests and that was
    read successfully. *)
Definition indexed_from (skip_types exclude_dirs include_files : list string)
  (entries : list (string * list string * list file)) (r : FileRecord) : Prop :=
  exists root dirs files f h,
    In (root, dirs, files) entries /\ In f files /\
    (forall excl, In excl exclude_dirs -> str_in excl root = false) /\
    admitted skip_types include_files root f /\
    file_read f = Digest h /\ h <> "" /\
    r = row_of root f h.

(** The encoder in the words of the specification, over exact quotients:
    divide by 1024 until the value is below 1024, taking the next unit at
    each division and stopping at ["P"]; then write the quotient with no
    decimals.  After [k] divisions the value [n / 1024^k] is below 1024
    exactly when [n < 1024^(k+1)]. *)
Fixpoint spec_scale (units : list string) (n k : Z) : Z * string :=
  match units with
  | [] => (k, "P")
  | unit :: rest =>
      if n <? 1024 ^ (k + 1) then (k, unit) else spec_scale rest n (k + 1)
  end.

Definition spec_encode (n : Z) : string :=
  let (k, unit) := spec_scale ["B"; "K"; "M"; "G"; "T"] n 0 in
  str_int (round_half_even n (1024 ^ k)) ++ unit.

(** The number of bytes one unit of the encoding of [n] stands for. *)
Definition granularity (n : Z) : Z :=
  1024 ^ fst (spec_scale ["B"; "K"; "M"; "G"; "T"] n 0).

(** The reading under which the byte count [n] is reported with the unit
    ["P"]. *)
Definition reported_with_unit_P (n : Z) : Prop :=
  exists digits, human_readable_size n = Return (digits ++ "P").

(** The reading under which the round trip stays within one unit for the
    byte count [n]. *)
Definition roundtrip_within_granularity (n : Z) : Prop :=
  exists s v,
    human_readable_size n = Return s /\
    size_to_bytes s = Return v /\
    Z.abs (v - n) < granularity n.

(** The two per-file tests of [index_file] as one boolean. *)
Definition admits (skip_types include_files : list string)
  (root : string) (f : file) : bool :=
  negb (negb (Nat.eqb (List.length include_files) 0)
        && negb (existsb (String.eqb (os_path_join root (file_name f)))
                         include_files))
  && negb (existsb (endswith (file_name f)) skip_types).

(** The rows a run inserts for one file, one directory and a whole walk. *)
Definition file_rows (skip_types include_files : list string)
  (root : string) (f : file) : list FileRecord :=
  if admits skip_types include_files root f then
    match file_read f with
    | Digest h => if (h =? "")%string then [] else [row_of root f h]
    | ReadError _ => []
    end
  else [].

Definition entry_rows (skip_types exclude_dirs include_files : list string)
  (entry : string * list string * list file) : list FileRecord :=
  let '(root, _, files) := entry in
  if existsb (fun excl => str_in excl root) exclude_dirs then []
  else flat_map (file_rows skip_types include_files root) files.

Definition walk_rows (skip_types exclude_dirs include_files : list string)
  (entries : list (string * list string * list file)) : list FileRecord :=
  flat_map (entry_rows skip_types exclude_dirs include_files) entries.

(** No name of the tree, of a directory or of a file, is an absolute
    path. *)
Fixpoint relative_tree (t : dirtree) : bool :=
  match t with
  | Unlisted => true
  | Dir files subdirs =>
      forallb (fun f => negb (prefix "/" (file_name f))) files
      && relative_tree_forest subdirs
  end
with relative_tree_forest (f : forest) : bool :=
  match f with
  | FNil => true
  | FCons name d rest =>
      negb (prefix "/" name) && relative_tree d && relative_tree_forest rest
  end.

(** Every file of the walk whose size is known is below [2^102] bytes. *)
Definition stat_bounded (entries : list (string * list string * list file))
  : bool :=
  forallb (fun entry : string * list string * list file =>
             forallb (fun f => match file_stat f with
                               | Some n => (0 <=? n) && (n <? 2 ^ 102)
                               | None => true
                               end) (snd entry))
          entries.

(** A line that reports progress. *)
Definition is_progress (line : string) : bool := prefix "Processed " line.

(** The counter is not negative and one progress line was printed for each
    two hundred rows counted. *)
Definition progress_invariant (st : run_state) : Prop :=
  0 <= file_count st /\
  Z.of_nat (List.length (filter is_progress (stdout st))) = file_count st / 200.

(** [f] was read with the non-empty digest [h]. *)
Definition digest_is (h : string) (f : file) : bool :=
  match file_read f with
  | Digest d => (d =? h)%string && negb (d =? "")%string
  | ReadError _ => false
  end.

(** * Proofs *)

(** ** Grouping *)

Section Grouping.

Variable rows : list FileRecord.

Lemma distinct_keys_filter (X K : Type) (keep : X -> bool) (key : X -> K) :
  forall xs : list X,
    NoDup (map key xs) -> NoDup (map key (filter keep xs)).
Proof.
  intros xs. induction xs as [| x xs IH]; simpl; intros Hd; [constructor |].
  apply NoDup_cons_iff in Hd. destruct Hd as [Hfresh Hrest].
  destruct (keep x); simpl; [| exact (IH Hrest)].
  apply NoDup_cons; [| exact (IH Hrest)].
  intros Hin. apply Hfresh.
  apply in_map_iff in Hin. destruct Hin as [y [Hy Hin]].
  apply filter_In in Hin. apply in_map_iff. exists y. tauto.
Qed.

Lemma group_keys :
  map fst (sql_group_by_hash rows) = nodup string_dec (map hash rows).
Proof.
  unfold sql_group_by_hash. rewrite map_map. simpl. apply map_id.
Qed.

Lemma select_duplicates_keys :
  map fst (select_duplicates rows)
  = map fst (filter (fun g => (1 <? List.length (snd g))%nat)
                    (sql_group_by_hash rows)).
Proof.
  unfold select_duplicates. rewrite map_map. reflexivity.
Qed.

Lemma select_duplicates_NoDup : NoDup (map fst (select_duplicates rows)).
Proof.
  rewrite select_duplicates_keys. apply distinct_keys_filter.
  rewrite group_keys. apply NoDup_nodup.
Qed.

Lemma rows_with_hash h r : In r (rows_with h rows) <-> In r rows /\ hash r = h.
Proof.
  unfold rows_with. rewrite filter_In, String.eqb_eq. tauto.
Qed.

Lemma select_duplicates_spec h paths :
  In (h, paths) (select_duplicates rows) <->
  (2 <= List.length (rows_with h rows))%nat /\
  paths = concat newline (map path (rows_with h rows)).
Proof.
  unfold select_duplicates, sql_group_by_hash. split.
  - intros Hin. apply in_map_iff in Hin. destruct Hin as [[h' g] [Heq Hin]].
    simpl in Heq. injection Heq as -> <-.
    apply filter_In in Hin. destruct Hin as [Hin Hlen]. simpl in Hlen.
    apply in_map_iff in Hin. destruct Hin as [h'' [Hg _]].
    injection Hg as -> <-. apply Nat.ltb_lt in Hlen.
    split; [exact Hlen | reflexivity].
  - intros [Hlen ->]. apply in_map_iff.
    exists (h, rows_with h rows). split; [reflexivity |].
    apply filter_In. split.
    + apply in_map_iff. exists h. split; [reflexivity |].
      apply nodup_In. destruct (rows_with h rows) as [| r l] eqn:E.
      * simpl in Hlen. lia.
      * assert (Hr : In r (rows_with h rows)) by (rewrite E; left; reflexivity).
        apply rows_with_hash in Hr. destruct Hr as [Hr <-].
        apply in_map. exact Hr.
    + simpl. apply Nat.ltb_lt. exact Hlen.
Qed.

End Grouping.

Lemma sql_where_filter (m : Z) (rows : list FileRecord) :
  forallb size_modelled rows = true ->
  sql_where m rows = Return (filter (size_at_least m) rows).
Proof.
  induction rows as [| r rows IH]; simpl; intros H; [reflexivity |].
  apply andb_true_iff in H. destruct H as [Hr Hrows].
  rewrite (IH Hrows). unfold size_modelled in Hr. unfold size_at_least.
  destruct (sql_size_bytes (size r)); try discriminate. reflexivity.
Qed.

Lemma rows_with_filter (p : FileRecord -> bool) h rows :
  rows_with h (filter p rows) = filter p (rows_with h rows).
Proof.
  unfold rows_with. induction rows as [| r rows IH]; simpl; [reflexivity |].
  destruct (p r) eqn:Hp, (hash r =? h)%string eqn:Hh; simpl;
    rewrite ?Hp, ?Hh, IH; reflexivity.
Qed.

Lemma split_last_app (s : string) (c : ascii) :
  split_last (s ++ String c "") = Some (s, c).
Proof.
  induction s as [| a s IH]; simpl; [reflexivity |]. rewrite IH. reflexivity.
Qed.

Lemma units_sql_unit (body : string) (c : ascii) (u : Z) :
  units c = Some u -> sql_unit (body ++ String c "") = u.
Proof.
  unfold sql_unit. rewrite split_last_app.
  destruct c as [[|] [|] [|] [|] [|] [|] [|] [|]]; simpl; intros H;
    try discriminate; injection H as <-; reflexivity.
Qed.

(** ** Duplicate query without a threshold *)

(** C2: with no [min_size], [find_duplicates] returns one row per hash that
    has at least two records and none for any other hash; the row of a hash
    carries all the paths recorded for it, joined in insertion order. *)
Theorem find_duplicates_no_threshold :
  forall conn : list FileRecord,
  exists groups,
    find_duplicates conn None = Return groups /\
    NoDup (map fst groups) /\
    forall h paths,
      In (h, paths) groups <->
      (2 <= List.length (rows_with h conn))%nat /\
      paths = concat newline (map path (rows_with h conn)).
Proof.
  intros conn. exists (select_duplicates conn). split; [reflexivity |].
  split; [apply select_duplicates_NoDup |].
  intros h paths. apply select_duplicates_spec.
Qed.

Example find_duplicates_two_of_three (p1 p2 p3 : string) :
  find_duplicates [mkFileRecord p1 "H1" "1K"; mkFileRecord p2 "H2" "1K";
                   mkFileRecord p3 "H1" "1K"] None
  = Return [("H1", p1 ++ newline ++ p3)].
Proof. reflexivity. Qed.

(** C10: a threshold of [0] selects the unfiltered query, so the result is
    the one obtained with no threshold; the same holds from the command
    line, where ["0"] and ["0B"] decode to [0]. *)
Theorem zero_threshold_is_absent :
  forall conn : list FileRecord,
    find_duplicates conn (Some 0) = find_duplicates conn None /\
    main_find_dupes conn (Some "0") = main_find_dupes conn None /\
    main_find_dupes conn (Some "0B") = main_find_dupes conn None.
Proof.
  intros conn. repeat split.
Qed.

(** ** Decimal digits *)

Lemma string_forall_app (p : ascii -> bool) (s t : string) :
  string_forall p (s ++ t) = string_forall p s && string_forall p t.
Proof.
  induction s as [| a s IH]; simpl; [reflexivity |].
  rewrite IH. apply andb_assoc.
Qed.

Lemma string_forall_impl (p q : ascii -> bool) (s : string) :
  (forall c, p c = true -> q c = true) ->
  string_forall p s = true -> string_forall q s = true.
Proof.
  intros Hpq. induction s as [| a s IH]; simpl; [reflexivity |].
  intros H. apply andb_true_iff in H. destruct H as [Ha Hs].
  rewrite (Hpq a Ha), (IH Hs). reflexivity.
Qed.

Lemma uint_digits (d : Decimal.uint) :
  string_forall is_digit (NilEmpty.string_of_uint d) = true.
Proof.
  induction d; simpl; auto.
Qed.

Lemma uint_digits_zero (d : Decimal.uint) :
  string_forall is_digit (NilZero.string_of_uint d) = true.
Proof.
  destruct d; try apply (uint_digits (_ d)); reflexivity.
Qed.

Lemma str_int_digits (n : Z) :
  0 <= n -> string_forall is_digit (str_int n) = true.
Proof.
  intros Hn. unfold str_int. destruct n as [| p | p]; try lia.
  - reflexivity.
  - simpl. apply uint_digits_zero.
Qed.

Lemma digits_value_str_int (n : Z) :
  0 <= n -> digits_value (str_int n) = Some n.
Proof.
  intros Hn. unfold str_int, digits_value. destruct n as [| p | p]; try lia.
  - reflexivity.
  - simpl. rewrite NilZero.usu by apply DecimalPos.Unsigned.to_uint_nonnil.
    unfold N.of_uint. rewrite DecimalPos.Unsigned.of_to. reflexivity.
Qed.

Lemma str_int_nonempty (n : Z) : 0 <= n -> str_int n <> "".
Proof.
  intros Hn H. pose proof (digits_value_str_int n Hn) as Hv.
  rewrite H in Hv. discriminate.
Qed.

Lemma is_digit_cases (c : ascii) :
  is_digit c = true ->
  is_ascii c = true /\ upper_char c = c /\ units c = None.
Proof.
  destruct c as [[|] [|] [|] [|] [|] [|] [|] [|]]; intros H;
    try discriminate; repeat split.
Qed.

Lemma digits_sql_text (s : string) :
  string_forall is_digit s = true -> string_forall is_sql_text s = true.
Proof.
  apply string_forall_impl. intros c.
  destruct c as [[|] [|] [|] [|] [|] [|] [|] [|]]; intros H;
    try discriminate; reflexivity.
Qed.

Lemma unit_letter_sql_text (c : ascii) (u : Z) :
  units c = Some u -> is_sql_text c = true.
Proof.
  destruct c as [[|] [|] [|] [|] [|] [|] [|] [|]]; simpl; intros H;
    try discriminate; reflexivity.
Qed.

Lemma digits_ascii (s : string) :
  string_forall is_digit s = true -> string_forall is_ascii s = true.
Proof.
  apply string_forall_impl. intros c H. apply (is_digit_cases c H).
Qed.

Lemma upper_app (s t : string) : upper (s ++ t) = upper s ++ upper t.
Proof.
  induction s as [| a s IH]; simpl; [reflexivity |]. rewrite IH. reflexivity.
Qed.

Lemma upper_digits (s : string) :
  string_forall is_digit s = true -> upper s = s.
Proof.
  induction s as [| a s IH]; simpl; [reflexivity |].
  intros H. apply andb_true_iff in H. destruct H as [Ha Hs].
  rewrite (IH Hs). destruct (is_digit_cases a Ha) as [_ [-> _]]. reflexivity.
Qed.

Lemma upper_char_idem (c : ascii) : upper_char (upper_char c) = upper_char c.
Proof.
  destruct c as [[|] [|] [|] [|] [|] [|] [|] [|]]; reflexivity.
Qed.

Lemma upper_idem (s : string) : upper (upper s) = upper s.
Proof.
  induction s as [| a s IH]; simpl; [reflexivity |].
  rewrite IH, upper_char_idem. reflexivity.
Qed.

Lemma upper_char_ascii (c : ascii) : is_ascii (upper_char c) = is_ascii c.
Proof.
  destruct c as [[|] [|] [|] [|] [|] [|] [|] [|]]; reflexivity.
Qed.

Lemma upper_ascii (s : string) :
  string_forall is_ascii (upper s) = string_forall is_ascii s.
Proof.
  induction s as [| a s IH]; simpl; [reflexivity |].
  rewrite IH, upper_char_ascii. reflexivity.
Qed.

Lemma remove_char_digits (c : ascii) (s : string) :
  is_digit c = false -> string_forall is_digit s = true ->
  remove_char c s = s.
Proof.
  intros Hc. induction s as [| a s IH]; simpl; [reflexivity |].
  intros H. apply andb_true_iff in H. destruct H as [Ha Hs].
  destruct (Ascii.eqb_spec a c) as [-> | _]; [congruence |].
  rewrite (IH Hs). reflexivity.
Qed.

Lemma remove_char_app (c : ascii) (s t : string) :
  remove_char c (s ++ t) = remove_char c s ++ remove_char c t.
Proof.
  induction s as [| a s IH]; simpl; [reflexivity |].
  rewrite IH. destruct (Ascii.eqb a c); reflexivity.
Qed.

Lemma unit_letter_cases (c : ascii) (u : Z) :
  units c = Some u ->
  is_digit c = false /\ is_ascii c = true /\ upper_char c = c /\ 0 < u.
Proof.
  destruct c as [[|] [|] [|] [|] [|] [|] [|] [|]]; simpl; intros H;
    try discriminate; injection H as <-; repeat split.
Qed.

(** What the query computes for a size written as digits and a unit letter:
    the value of the digits times the entry of the [units] table. *)
Lemma sql_size_bytes_encoded (n : Z) (c : ascii) (u : Z) :
  0 <= n < 2 ^ 53 -> units c = Some u ->
  sql_size_bytes (str_int n ++ String c "") = Return (n * u).
Proof.
  intros Hn Hu. destruct (unit_letter_cases c u Hu) as [Hd _].
  assert (Ha := unit_letter_sql_text c u Hu).
  assert (Hdig := str_int_digits n (proj1 Hn)).
  unfold sql_size_bytes.
  rewrite string_forall_app, (digits_sql_text _ Hdig). simpl. rewrite Ha. simpl.
  unfold sql_strip_unit. rewrite split_last_app, remove_char_app.
  rewrite (remove_char_digits c _ Hd Hdig). simpl. rewrite Ascii.eqb_refl.
  rewrite (units_sql_unit _ _ _ Hu).
  replace (str_int n ++ "") with (str_int n)
    by (clear; induction (str_int n) as [| a s IH]; simpl; congruence).
  unfold sql_cast_float.
  destruct (String.eqb_spec (str_int n) "") as [E | _];
    [exfalso; exact (str_int_nonempty n (proj1 Hn) E) |].
  rewrite (digits_value_str_int n (proj1 Hn)).
  destruct (Z.ltb_spec n (2 ^ 53)); [reflexivity | lia].
Qed.

(** ** Duplicate query with a threshold *)

(** C1, as the query is written.  A non-zero threshold is bound to the
    statement as a 64-bit integer: outside that range the call raises
    [OverflowError].  Within it, and over a table whose stored sizes the
    query decodes exactly (digits below [2^53] followed by a unit letter,
    the form the indexer writes, are such sizes), the [WHERE] clause
    discards the rows below the threshold before the rows are grouped, so
    a hash is reported exactly when at least two of its rows decode to
    [min_size] or more, and its row lists those rows only, in insertion
    order.  Each size is decoded at query time with the multipliers of the
    [units] table.  A hash whose rows are all ["5M"] is not reported for
    any threshold above five mebibytes, [10 * 1024 * 1024] among them. *)
Theorem find_duplicates_threshold :
  forall (conn : list FileRecord) (min_size : Z),
    min_size <> 0 ->
    (fits_int64 min_size = false ->
     find_duplicates conn (Some min_size) = Raise OverflowError) /\
    (forall n c u, 0 <= n < 2 ^ 53 -> units c = Some u ->
        sql_size_bytes (str_int n ++ String c "") = Return (n * u) /\
        forall p h,
          size_modelled (mkFileRecord p h (str_int n ++ String c "")) = true) /\
    (fits_int64 min_size = true ->
     forallb size_modelled conn = true ->
     exists groups,
       find_duplicates conn (Some min_size) = Return groups /\
       NoDup (map fst groups) /\
       (forall h paths,
           In (h, paths) groups <->
           (2 <= List.length (filter (size_at_least min_size)
                                     (rows_with h conn)))%nat /\
           paths = concat newline
                     (map path (filter (size_at_least min_size)
                                       (rows_with h conn)))) /\
       (5 * 1024 * 1024 < min_size ->
        forall h, (forall r, In r (rows_with h conn) -> size r = "5M") ->
                  forall paths, ~ In (h, paths) groups)).
Proof.
  intros conn m Hm.
  split; [| split].
  - intros Hfit. unfold find_duplicates.
    destruct (Z.eqb_spec m 0) as [E | _]; [contradiction |].
    rewrite Hfit. reflexivity.
  - intros n c u Hn Hu.
    pose proof (sql_size_bytes_encoded n c u Hn Hu) as Hdec.
    split; [exact Hdec |].
    intros p h. unfold size_modelled. simpl size. rewrite Hdec. reflexivity.
  - intros Hfit Hmod.
    exists (select_duplicates (filter (size_at_least m) conn)).
    assert (Hspec : forall h paths,
               In (h, paths) (select_duplicates (filter (size_at_least m) conn))
               <->
               (2 <= List.length (filter (size_at_least m)
                                         (rows_with h conn)))%nat /\
               paths = concat newline
                         (map path (filter (size_at_least m)
                                           (rows_with h conn)))).
    { intros h paths. rewrite select_duplicates_spec, rows_with_filter. tauto. }
    split; [| split; [| split]].
    + unfold find_duplicates.
      destruct (Z.eqb_spec m 0) as [E | _]; [contradiction |].
      rewrite Hfit, (sql_where_filter m conn Hmod). reflexivity.
    + apply select_duplicates_NoDup.
    + exact Hspec.
    + intros Hbig h Hall paths Hin. apply Hspec in Hin. destruct Hin as [Hlen _].
      destruct (filter (size_at_least m) (rows_with h conn)) as [| r l] eqn:E;
        [simpl in Hlen; lia |].
      assert (Hr : In r (filter (size_at_least m) (rows_with h conn)))
        by (rewrite E; left; reflexivity).
      apply filter_In in Hr. destruct Hr as [Hr Hge].
      unfold size_at_least in Hge. rewrite (Hall r Hr) in Hge.
      change (sql_size_bytes "5M") with (Return (A:=Z) 5242880) in Hge.
      apply Z.leb_le in Hge. lia.
Qed.

Lemma find_duplicates_threshold_witness :
  exists groups,
    find_duplicates [mkFileRecord "/a" "H" "5M"; mkFileRecord "/b" "H" "5M";
                     mkFileRecord "/c" "G" "20M"; mkFileRecord "/d" "G" "12M"]
                    (Some (10 * 1024 * 1024)) = Return groups /\
    ~ In ("H", "/a" ++ newline ++ "/b") groups.
Proof.
  destruct (proj2 (proj2 (find_duplicates_threshold
              [mkFileRecord "/a" "H" "5M"; mkFileRecord "/b" "H" "5M";
               mkFileRecord "/c" "G" "20M"; mkFileRecord "/d" "G" "12M"]
              (10 * 1024 * 1024) ltac:(lia))) eq_refl eq_refl)
    as [groups [Hq [_ [_ H5]]]].
  exists groups. split; [exact Hq |].
  apply H5; [lia |].
  intros r Hr. simpl in Hr.
  destruct Hr as [<- | [<- | []]]; reflexivity.
Defined.

(** C1, as it is worded, fails: the hash ["H"] has two rows and one of them
    decodes to twenty mebibytes, yet the query reports nothing for a
    threshold of ten. *)
Lemma one_large_member_is_not_enough :
  ~ retains_iff_some_member
      [mkFileRecord "/a" "H" "20M"; mkFileRecord "/b" "H" "0B"]
      (10 * 1024 * 1024).
Proof.
  intros [groups [Hq Hiff]].
  change (Return (A:=list (string * string)) [] = Return groups) in Hq.
  injection Hq as <-.
  destruct (proj2 (Hiff "H")) as [paths []].
  split.
  - simpl. lia.
  - exists (mkFileRecord "/a" "H" "20M"). split; [left; reflexivity | reflexivity].
Qed.

(** ** Text tests *)

Lemma endswith_empty (s : string) : endswith s "" = true.
Proof.
  induction s as [| a s IH]; simpl; [reflexivity |]. exact IH.
Qed.

Lemma prefix_app (e s t : string) :
  prefix e s = true -> prefix e (s ++ t) = true.
Proof.
  revert s. induction e as [| a e IH]; intros s;
    [destruct (s ++ t); reflexivity |].
  destruct s as [| b s]; simpl; [discriminate |].
  destruct (ascii_dec a b); [apply IH | discriminate].
Qed.

Lemma prefix_self_app (e t : string) : prefix e (e ++ t) = true.
Proof.
  induction e as [| a e IH]; simpl; [destruct t; reflexivity |].
  destruct (ascii_dec a a); [exact IH | congruence].
Qed.

Lemma prefix_split (e s : string) :
  prefix e s = true -> exists t, s = e ++ t.
Proof.
  revert s. induction e as [| a e IH]; intros s H.
  - exists s. reflexivity.
  - destruct s as [| b s]; simpl in H; [discriminate |].
    destruct (ascii_dec a b) as [<- | _]; [| discriminate].
    destruct (IH s H) as [t ->]. exists t. reflexivity.
Qed.

Lemma str_in_cons (e : string) (x : ascii) (s : string) :
  str_in e (String x s) = prefix e (String x s) || str_in e s.
Proof. reflexivity. Qed.

Lemma str_in_nil (e : string) : str_in e "" = prefix e "".
Proof. simpl. apply orb_false_r. Qed.

Lemma prefix_nil (e : string) : prefix e "" = true -> e = "".
Proof. destruct e; [reflexivity | discriminate]. Qed.

Lemma str_in_app (e s t : string) :
  str_in e s = true -> str_in e (s ++ t) = true.
Proof.
  induction s as [| a s IH].
  - rewrite str_in_nil. intros H. apply prefix_nil in H. subst e.
    destruct t; reflexivity.
  - rewrite str_in_cons. intros H. apply orb_true_iff in H.
    change (String a s ++ t) with (String a (s ++ t)). rewrite str_in_cons.
    apply orb_true_iff. destruct H as [H | H].
    + left. apply (prefix_app e (String a s) t H).
    + right. apply IH. exact H.
Qed.

(** [str_in] is the substring test: [e] occurs somewhere in [s]. *)
Lemma str_in_spec (e s : string) :
  str_in e s = true <-> exists a b, s = a ++ e ++ b.
Proof.
  split.
  - induction s as [| x s IH].
    + rewrite str_in_nil. intros H. apply prefix_nil in H. subst e.
      exists "", "". reflexivity.
    + rewrite str_in_cons. intros H. apply orb_true_iff in H.
      destruct H as [H | H].
      * destruct (prefix_split _ _ H) as [t Ht]. exists "", t. exact Ht.
      * destruct (IH H) as [a [b ->]]. exists (String x a), b. reflexivity.
  - intros [a [b ->]]. induction a as [| x a IH].
    + change ("" ++ e ++ b) with (e ++ b).
      destruct (e ++ b) as [| y u] eqn:E.
      * destruct e; [reflexivity | discriminate].
      * rewrite str_in_cons, <- E, prefix_self_app. reflexivity.
    + change (String x a ++ e ++ b) with (String x (a ++ e ++ b)).
      rewrite str_in_cons, IH. apply orb_true_r.
Qed.

Lemma os_path_join_relative (a b : string) :
  prefix "/" b = false -> exists sep, os_path_join a b = a ++ sep ++ b.
Proof.
  intros H. unfold os_path_join. rewrite H.
  destruct ((a =? "")%string || endswith a "/").
  - exists "". reflexivity.
  - exists "/". reflexivity.
Qed.

(** ** The indexing run *)

Lemma extends_refl (P : FileRecord -> Prop) (st : run_state) : extends P st st.
Proof.
  exists []. rewrite List.app_nil_r. simpl. repeat split; [lia | constructor].
Qed.

Lemma extends_trans (P : FileRecord -> Prop) (a b c : run_state) :
  extends P a b -> extends P b c -> extends P a c.
Proof.
  intros [l1 [Hd1 [Hc1 Hp1]]] [l2 [Hd2 [Hc2 Hp2]]].
  exists (l1 ++ l2)%list. repeat split.
  - rewrite Hd2, Hd1, List.app_assoc. reflexivity.
  - rewrite Hc2, Hc1, List.length_app. lia.
  - apply Forall_app. split; assumption.
Qed.

Lemma extends_weaken (P Q : FileRecord -> Prop) (a b : run_state) :
  (forall r, P r -> Q r) -> extends P a b -> extends Q a b.
Proof.
  intros HPQ [l [Hd [Hc Hp]]]. exists l. repeat split; auto.
  eapply Forall_impl; eauto.
Qed.

Lemma extends_print (P : FileRecord -> Prop) (line : string) (st : run_state) :
  extends P st (print line st).
Proof.
  exists []. simpl. rewrite List.app_nil_r. repeat split; [lia | constructor].
Qed.

Lemma fold_left_extends (X : Type) (P : FileRecord -> Prop)
  (f : run_state -> X -> run_state) (l : list X) :
  (forall st x, In x l -> extends P st (f st x)) ->
  forall st, extends P st (fold_left f l st).
Proof.
  induction l as [| x l IH]; simpl; intros H st.
  - apply extends_refl.
  - eapply extends_trans.
    + apply (H st x). left. reflexivity.
    + apply IH. intros st' y Hy. apply H. right. exact Hy.
Qed.

Lemma extends_In (P : FileRecord -> Prop) (a b : run_state) (r : FileRecord) :
  extends P a b -> In r (db a) -> In r (db b).
Proof.
  intros [l [Hd _]] Hin. rewrite Hd. apply in_or_app. left. exact Hin.
Qed.

Lemma same_store_refl (st : run_state) : same_store st st.
Proof. split; reflexivity. Qed.

Lemma same_store_print (line : string) (st : run_state) :
  same_store (print line st) st.
Proof. split; reflexivity. Qed.

Lemma same_store_trans (a b c : run_state) :
  same_store a b -> same_store b c -> same_store a c.
Proof. intros [H1 H2] [H3 H4]. split; congruence. Qed.

Lemma same_store_sym (a b : run_state) : same_store a b -> same_store b a.
Proof. intros [H1 H2]. split; congruence. Qed.

Lemma fold_left_same_store (X : Type) (f : run_state -> X -> run_state)
  (l : list X) :
  (forall a b x, same_store a b -> same_store (f a x) (f b x)) ->
  forall a b, same_store a b -> same_store (fold_left f l a) (fold_left f l b).
Proof.
  intros Hf. induction l as [| x l IH]; simpl; intros a b Hab; auto.
Qed.

Section Run.

Variables skip_types exclude_dirs include_files : list string.
Variable verbose : bool.

Lemma include_test (file_path : string) :
  negb (Nat.eqb (List.length include_files) 0)
  && negb (existsb (String.eqb file_path) include_files) = false <->
  include_files = [] \/ In file_path include_files.
Proof.
  split.
  - intros H. apply andb_false_iff in H. destruct H as [H | H].
    + left. apply negb_false_iff, Nat.eqb_eq in H.
      destruct include_files; [reflexivity | discriminate].
    + right. apply negb_false_iff, existsb_exists in H.
      destruct H as [x [Hx Heq]]. apply String.eqb_eq in Heq. subst x. exact Hx.
  - intros [-> | H]; [reflexivity |].
    apply andb_false_iff. right. apply negb_false_iff, existsb_exists.
    exists file_path. split; [exact H | apply String.eqb_refl].
Qed.

Lemma skip_test (name : string) :
  existsb (endswith name) skip_types = false <->
  forall ext, In ext skip_types -> endswith name ext = false.
Proof.
  split.
  - intros H ext Hin. destruct (endswith name ext) eqn:E; [| reflexivity].
    assert (Ht : existsb (endswith name) skip_types = true)
      by (apply existsb_exists; exists ext; split; assumption).
    congruence.
  - intros H. destruct (existsb (endswith name) skip_types) eqn:E; [| reflexivity].
    apply existsb_exists in E. destruct E as [ext [Hin Ht]].
    rewrite (H ext Hin) in Ht. discriminate.
Qed.

Lemma index_file_admitted (root : string) (st : run_state) (f : file) :
  admitted skip_types include_files root f ->
  index_file skip_types include_files root st f
  = store_file (os_path_join root (file_name f)) st f.
Proof.
  intros [Hinc Hskip]. unfold index_file.
  rewrite (proj2 (include_test _) Hinc), (proj2 (skip_test _) Hskip).
  reflexivity.
Qed.

Lemma index_file_cases (root : string) (st : run_state) (f : file) :
  index_file skip_types include_files root st f = st \/
  admitted skip_types include_files root f.
Proof.
  unfold index_file.
  destruct (negb (Nat.eqb (List.length include_files) 0)
            && negb (existsb (String.eqb (os_path_join root (file_name f)))
                             include_files)) eqn:E1; [left; reflexivity |].
  destruct (existsb (endswith (file_name f)) skip_types) eqn:E2;
    [left; reflexivity |].
  right. split; [apply include_test, E1 | apply skip_test, E2].
Qed.

Lemma store_file_digest (p : string) (st : run_state) (f : file) (h : string) :
  file_read f = Digest h -> h <> "" ->
  db (store_file p st f) = (db st ++ [mkFileRecord p h (size_hr_of f)])%list /\
  file_count (store_file p st f) = file_count st + 1.
Proof.
  intros Hr Hh. unfold store_file, hash_file. rewrite Hr.
  destruct (String.eqb_spec h "") as [E | _]; [contradiction |].
  simpl. destruct ((file_count st + 1) mod 200 =? 0); split; reflexivity.
Qed.

Lemma store_file_error (p : string) (st : run_state) (f : file) (e : string) :
  file_read f = ReadError e ->
  store_file p st f = print ("Error reading " ++ p ++ ": " ++ e) st.
Proof.
  intros Hr. unfold store_file, hash_file. rewrite Hr. reflexivity.
Qed.

Lemma store_file_extends (p : string) (st : run_state) (f : file) :
  extends (fun r => exists h, file_read f = Digest h /\ h <> "" /\
                              r = mkFileRecord p h (size_hr_of f))
          st (store_file p st f).
Proof.
  destruct (file_read f) as [h | e] eqn:Hr.
  - destruct (String.eqb_spec h "") as [E | Hne].
    + unfold store_file, hash_file. rewrite Hr, E. simpl.
      exists []. simpl. rewrite List.app_nil_r. repeat split; [lia | constructor].
    + destruct (store_file_digest p st f h Hr Hne) as [Hd Hc].
      exists [mkFileRecord p h (size_hr_of f)]. repeat split; auto.
      constructor; [| constructor]. exists h. auto.
  - rewrite (store_file_error p st f e Hr). apply extends_print.
Qed.

Lemma index_file_extends (root : string) (st : run_state) (f : file) :
  extends (fun r => admitted skip_types include_files root f /\
                    exists h, file_read f = Digest h /\ h <> "" /\
                              r = row_of root f h)
          st (index_file skip_types include_files root st f).
Proof.
  destruct (index_file_cases root st f) as [-> | Hadm].
  - apply extends_refl.
  - rewrite (index_file_admitted root st f Hadm).
    eapply extends_weaken; [| apply store_file_extends].
    intros r H. split; [exact Hadm | exact H].
Qed.

Lemma exclude_test (root : string) :
  existsb (fun excl => str_in excl root) exclude_dirs = false <->
  forall excl, In excl exclude_dirs -> str_in excl root = false.
Proof.
  split.
  - intros H excl Hin. destruct (str_in excl root) eqn:E; [| reflexivity].
    assert (Ht : existsb (fun excl => str_in excl root) exclude_dirs = true)
      by (apply existsb_exists; exists excl; split; assumption).
    congruence.
  - intros H.
    destruct (existsb (fun excl => str_in excl root) exclude_dirs) eqn:E;
      [| reflexivity].
    apply existsb_exists in E. destruct E as [excl [Hin Ht]].
    rewrite (H excl Hin) in Ht. discriminate.
Qed.

Lemma index_entry_extends (entries : list (string * list string * list file))
  (entry : string * list string * list file) (st : run_state) :
  In entry entries ->
  extends (indexed_from skip_types exclude_dirs include_files entries)
          st (index_entry skip_types exclude_dirs include_files verbose st entry).
Proof.
  destruct entry as [[root dirs] files]. intros Hin. unfold index_entry.
  destruct (existsb (fun excl => str_in excl root) exclude_dirs) eqn:E;
    [apply extends_refl |].
  eapply extends_trans.
  - instantiate (1 := if verbose then print ("Scanning directory: " ++ root) st
                      else st).
    destruct verbose; [apply extends_print | apply extends_refl].
  - apply fold_left_extends. intros st' f Hf.
    eapply extends_weaken; [| apply index_file_extends].
    intros r [Hadm [h [Hr [Hh ->]]]].
    exists root, dirs, files, f, h. repeat split; auto; try apply Hadm.
    apply exclude_test. exact E.
Qed.

Lemma index_entries_extends (entries es : list (string * list string * list file))
  (st : run_state) :
  incl es entries ->
  extends (indexed_from skip_types exclude_dirs include_files entries)
          st (index_entries skip_types exclude_dirs include_files verbose es st).
Proof.
  intros Hincl. unfold index_entries. apply fold_left_extends.
  intros st' x Hx. apply index_entry_extends. apply Hincl. exact Hx.
Qed.

Lemma index_entries_app (es1 es2 : list (string * list string * list file))
  (st : run_state) :
  index_entries skip_types exclude_dirs include_files verbose (es1 ++ es2) st
  = index_entries skip_types exclude_dirs include_files verbose es2
      (index_entries skip_types exclude_dirs include_files verbose es1 st).
Proof.
  unfold index_entries. apply fold_left_app.
Qed.

Lemma same_store_store_file (p : string) (a b : run_state) (f : file) :
  same_store a b -> same_store (store_file p a f) (store_file p b f).
Proof.
  intros [Hd Hc]. unfold store_file, hash_file.
  destruct (file_read f) as [h | e]; simpl.
  - destruct (h =? "")%string; simpl; [split; assumption |].
    rewrite Hc. destruct ((file_count b + 1) mod 200 =? 0); simpl;
      split; simpl; congruence.
  - split; assumption.
Qed.

Lemma same_store_index_file (root : string) (a b : run_state) (f : file) :
  same_store a b ->
  same_store (index_file skip_types include_files root a f)
             (index_file skip_types include_files root b f).
Proof.
  intros Hab. unfold index_file.
  destruct (negb (Nat.eqb (List.length include_files) 0) && _); [exact Hab |].
  destruct (existsb _ skip_types); [exact Hab |].
  apply same_store_store_file. exact Hab.
Qed.

Lemma same_store_index_entry (a b : run_state)
  (entry : string * list string * list file) :
  same_store a b ->
  same_store (index_entry skip_types exclude_dirs include_files verbose a entry)
             (index_entry skip_types exclude_dirs include_files verbose b entry).
Proof.
  destruct entry as [[root dirs] files]. intros Hab. unfold index_entry.
  destruct (existsb _ exclude_dirs); [exact Hab |].
  apply fold_left_same_store.
  - intros x y f. apply same_store_index_file.
  - destruct verbose; [| exact Hab].
    eapply same_store_trans; [apply same_store_print |].
    eapply same_store_trans; [exact Hab |].
    apply same_store_sym, same_store_print.
Qed.

Lemma same_store_index_entries (es : list (string * list string * list file))
  (a b : run_state) :
  same_store a b ->
  same_store (index_entries skip_types exclude_dirs include_files verbose es a)
             (index_entries skip_types exclude_dirs include_files verbose es b).
Proof.
  unfold index_entries. apply fold_left_same_store.
  intros x y e. apply same_store_index_entry.
Qed.

End Run.

(** ** What a run persists *)

Lemma index_directory_extends (base_dir : string) (fs : dirtree)
  (conn : list FileRecord)
  (skip_types exclude_dirs include_files : list string) (verbose : bool) :
  exists added,
    db (fst (index_directory base_dir fs conn skip_types exclude_dirs
                             include_files verbose)) = (conn ++ added)%list /\
    file_count (fst (index_directory base_dir fs conn skip_types exclude_dirs
                                     include_files verbose))
    = Z.of_nat (List.length added) /\
    Forall (indexed_from skip_types exclude_dirs include_files
                         (os_walk base_dir fs)) added.
Proof.
  destruct (index_entries_extends skip_types exclude_dirs include_files verbose
              (os_walk base_dir fs) (os_walk base_dir fs) (mkState conn 0 [])
              (incl_refl _)) as [added [Hd [Hc Hp]]].
  exists added. unfold index_directory. simpl. repeat split; assumption.
Qed.

(** C8, as the function is written: [index_directory] has no [return]
    statement, so its caller receives [None]; the number of rows inserted
    during the run is the final value of [file_count], which the last
    printed line reports. *)
Theorem index_directory_reports_count :
  forall (base_dir : string) (fs : dirtree) (conn : list FileRecord)
         (skip_types exclude_dirs include_files : list string) (verbose : bool),
  exists added lines,
    db (fst (index_directory base_dir fs conn skip_types exclude_dirs
                             include_files verbose)) = (conn ++ added)%list /\
    file_count (fst (index_directory base_dir fs conn skip_types exclude_dirs
                                     include_files verbose))
    = Z.of_nat (List.length added) /\
    stdout (fst (index_directory base_dir fs conn skip_types exclude_dirs
                                 include_files verbose))
    = (lines ++ [("Total files processed: "
                  ++ str_int (Z.of_nat (List.length added)))%string])%list /\
    snd (index_directory base_dir fs conn skip_types exclude_dirs
                         include_files verbose) = PyNone.
Proof.
  intros base_dir fs conn skip_types exclude_dirs include_files verbose.
  destruct (index_directory_extends base_dir fs conn skip_types exclude_dirs
              include_files verbose) as [added [Hd [Hc _]]].
  exists added.
  exists (stdout (index_entries skip_types exclude_dirs include_files verbose
                    (os_walk base_dir fs) (mkState conn 0 []))).
  split; [exact Hd |]. split; [exact Hc |]. split; [| reflexivity].
  unfold index_directory in *. simpl in *. rewrite Hc. reflexivity.
Qed.

(** C8, as it is worded, fails: a run that inserts one row hands [None]
    back, not [1]. *)
Lemma index_directory_returns_none :
  ~ returns_persisted_count "/proj"
      (Dir [mkFile "a.txt" (Digest "H1") (Some 5)] FNil) [] [] [] [] false.
Proof.
  intros [added [_ Hret]]. discriminate Hret.
Qed.

(** C9: when the empty string is among the skipped suffixes, every file
    name ends with it, so a run inserts no row, whatever the tree and the
    other two filter sets hold. *)
Theorem empty_suffix_skips_every_file :
  forall (base_dir : string) (fs : dirtree) (conn : list FileRecord)
         (skip_types exclude_dirs include_files : list string) (verbose : bool),
    In "" skip_types ->
    db (fst (index_directory base_dir fs conn skip_types exclude_dirs
                             include_files verbose)) = conn /\
    file_count (fst (index_directory base_dir fs conn skip_types exclude_dirs
                                     include_files verbose)) = 0 /\
    forall root st f,
      index_file skip_types include_files root st f = st.
Proof.
  intros base_dir fs conn skip_types exclude_dirs include_files verbose Hin.
  assert (Hfile : forall root st f,
             index_file skip_types include_files root st f = st).
  { intros root st f.
    destruct (index_file_cases skip_types include_files root st f)
      as [H | [_ Hskip]]; [exact H |].
    specialize (Hskip "" Hin). rewrite endswith_empty in Hskip. discriminate. }
  destruct (index_directory_extends base_dir fs conn skip_types exclude_dirs
              include_files verbose) as [added [Hd [Hc Hp]]].
  assert (Hnil : added = []).
  { destruct added as [| r added]; [reflexivity |].
    inversion Hp as [| x l Hr _]; subst.
    destruct Hr as [root [dirs [files [f [h [_ [_ [_ [[_ Hskip] _]]]]]]]]].
    specialize (Hskip "" Hin). rewrite endswith_empty in Hskip. discriminate. }
  subst added. rewrite List.app_nil_r in Hd. simpl in Hc.
  split; [exact Hd |]. split; [exact Hc | exact Hfile].
Qed.

Lemma empty_suffix_skips_every_file_witness :
  db (fst (index_directory "/proj"
             (Dir [mkFile "a.txt" (Digest "H1") (Some 5)]
                  (FCons "src" (Dir [mkFile "b" (Digest "H2") (Some 7)] FNil) FNil))
             [] [".log"; ""] [] [] true)) = [].
Proof.
  apply (empty_suffix_skips_every_file "/proj"
           (Dir [mkFile "a.txt" (Digest "H1") (Some 5)]
                (FCons "src" (Dir [mkFile "b" (Digest "H2") (Some 7)] FNil) FNil))
           [] [".log"; ""] [] [] true).
  simpl. right. left. reflexivity.
Defined.

(** C4: in a directory that is not excluded, a file whose full path is not
    a member of a non-empty include set is left out whatever the skipped
    suffixes are, and a run then inserts rows for members of the set only;
    with an empty include set the suffix test alone decides whether the
    file goes on to be hashed and stored. *)
Theorem include_set_is_an_allowlist :
  forall (base_dir : string) (fs : dirtree) (conn : list FileRecord)
         (skip_types exclude_dirs include_files : list string) (verbose : bool)
         (root : string) (st : run_state) (f : file),
    (include_files <> [] ->
     ~ In (os_path_join root (file_name f)) include_files ->
     forall skip, index_file skip include_files root st f = st) /\
    (include_files <> [] ->
     exists added,
       db (fst (index_directory base_dir fs conn skip_types exclude_dirs
                                include_files verbose)) = (conn ++ added)%list /\
       Forall (fun r => In (path r) include_files) added) /\
    index_file skip_types [] root st f
    = (if existsb (endswith (file_name f)) skip_types then st
       else store_file (os_path_join root (file_name f)) st f).
Proof.
  intros base_dir fs conn skip_types exclude_dirs include_files verbose
         root st f.
  split; [| split].
  - intros Hne Hnotin skip.
    destruct (index_file_cases skip include_files root st f)
      as [H | [[Hnil | Hin] _]]; [exact H | contradiction | contradiction].
  - intros Hne.
    destruct (index_directory_extends base_dir fs conn skip_types exclude_dirs
                include_files verbose) as [added [Hd [_ Hp]]].
    exists added. split; [exact Hd |].
    eapply Forall_impl; [| exact Hp].
    intros r [root' [dirs [files [f' [h [_ [_ [_ [[[Hnil | Hin] _] [_ [_ ->]]]]]]]]]]];
      [contradiction | exact Hin].
  - reflexivity.
Qed.

Lemma include_set_is_an_allowlist_witness :
  index_file [".log"] ["/a/b.txt"] "/a" (mkState [] 0 [])
             (mkFile "c.txt" (Digest "H1") (Some 5))
  = mkState [] 0 [].
Proof.
  refine (proj1 (include_set_is_an_allowlist "/a" Unlisted [] [] []
                   ["/a/b.txt"] false "/a" (mkState [] 0 [])
                   (mkFile "c.txt" (Digest "H1") (Some 5))) _ _ [".log"]).
  - discriminate.
  - simpl. intros [H | []]. discriminate H.
Defined.

(** ** Excluded directories *)

Scheme dirtree_forest_ind := Induction for dirtree Sort Prop
  with forest_dirtree_ind := Induction for forest Sort Prop.

Scheme subtree_at_forest_ind := Minimality for subtree_at Sort Prop
  with forest_subtree_at_tree_ind := Minimality for forest_subtree_at Sort Prop.

Lemma index_entries_cons
  (skip_types exclude_dirs include_files : list string) (verbose : bool)
  (e : string * list string * list file)
  (es : list (string * list string * list file)) (st : run_state) :
  index_entries skip_types exclude_dirs include_files verbose (e :: es) st
  = index_entries skip_types exclude_dirs include_files verbose es
      (index_entry skip_types exclude_dirs include_files verbose st e).
Proof. reflexivity. Qed.

Section Excluded.

Variables skip_types exclude_dirs include_files : list string.
Variable verbose : bool.
Variable excl : string.
Hypothesis excl_configured : In excl exclude_dirs.

Lemma index_entry_excluded (root : string) (dirs : list string)
  (files : list file) (st : run_state) :
  str_in excl root = true ->
  index_entry skip_types exclude_dirs include_files verbose st
              (root, dirs, files) = st.
Proof.
  intros H. unfold index_entry.
  replace (existsb (fun e => str_in e root) exclude_dirs) with true;
    [reflexivity |].
  symmetry. apply existsb_exists. exists excl. split; assumption.
Qed.

Lemma os_walk_excluded (t : dirtree) :
  forall top, str_in excl top = true -> relative_names t = true ->
  forall st, index_entries skip_types exclude_dirs include_files verbose
                           (os_walk top t) st = st.
Proof.
  induction t using dirtree_forest_ind
    with (P0 := fun f =>
            forall top, str_in excl top = true -> relative_forest f = true ->
            forall st, index_entries skip_types exclude_dirs include_files
                                     verbose (walk_forest top f) st = st).
  - intros top Htop Hrel st.
    match goal with
    | |- context [os_walk top (Dir ?fl ?sd)] =>
        change (os_walk top (Dir fl sd))
          with ((top, forest_names sd, fl) :: walk_forest top sd)
    end.
    rewrite index_entries_cons, (index_entry_excluded top _ _ st Htop).
    apply (IHt top Htop Hrel st).
  - intros top _ _ st. reflexivity.
  - intros top _ _ st. reflexivity.
  - intros top Htop Hrel st. simpl in Hrel.
    apply andb_true_iff in Hrel. destruct Hrel as [Hrel Hrest].
    apply andb_true_iff in Hrel. destruct Hrel as [Hname Hd].
    apply negb_true_iff in Hname.
    simpl. rewrite index_entries_app.
    destruct (os_path_join_relative top name Hname) as [sep Hjoin].
    rewrite IHt.
    + apply IHt0; assumption.
    + rewrite Hjoin. apply str_in_app. exact Htop.
    + exact Hd.
Qed.

End Excluded.

Lemma subtree_walk_segment (base_dir : string) (fs : dirtree)
  (d : string) (sub : dirtree) :
  subtree_at base_dir fs d sub ->
  exists pre post, os_walk base_dir fs = (pre ++ os_walk d sub ++ post)%list.
Proof.
  intros H.
  induction H using subtree_at_forest_ind
    with (P0 := fun top f d sub =>
            exists pre post,
              walk_forest top f = (pre ++ os_walk d sub ++ post)%list).
  - exists [], []. rewrite List.app_nil_r. reflexivity.
  - destruct IHsubtree_at as [pre [post E]].
    exists ((top, forest_names subdirs, files) :: pre), post.
    simpl. rewrite E. reflexivity.
  - destruct IHsubtree_at as [pre [post E]].
    exists pre, (post ++ walk_forest top rest)%list.
    simpl. rewrite E. rewrite <- !List.app_assoc. reflexivity.
  - destruct IHsubtree_at as [pre [post E]].
    exists (os_walk (os_path_join top name) t ++ pre)%list, post.
    simpl. rewrite E. rewrite <- !List.app_assoc. reflexivity.
Qed.

(** C3: the exclusion test is made on the directory path, before any file
    of the directory is looked at, and it is a substring test.  When a
    configured exclusion occurs anywhere in the path [d] of a directory of
    the tree, the run passes over the triples of that directory and of all
    its descendants without any effect, for every include set (so also for
    one that lists a file of the subtree): the run is the run over the
    rest of the walk. *)
Theorem excluded_directory_is_never_indexed :
  forall (skip_types exclude_dirs include_files : list string) (verbose : bool)
         (base_dir : string) (fs : dirtree) (d : string) (sub : dirtree)
         (excl a b : string),
    subtree_at base_dir fs d sub ->
    relative_names sub = true ->
    In excl exclude_dirs ->
    d = a ++ excl ++ b ->
    (forall dirs files st,
        index_entry skip_types exclude_dirs include_files verbose st
                    (d, dirs, files) = st) /\
    (forall st,
        index_entries skip_types exclude_dirs include_files verbose
                      (os_walk d sub) st = st) /\
    exists pre post,
      os_walk base_dir fs = (pre ++ os_walk d sub ++ post)%list /\
      forall st,
        index_entries skip_types exclude_dirs include_files verbose
                      (os_walk base_dir fs) st
        = index_entries skip_types exclude_dirs include_files verbose
                        (pre ++ post) st.
Proof.
  intros skip_types exclude_dirs include_files verbose base_dir fs d sub
         excl a b Hsub Hrel Hin Hd.
  assert (Hocc : str_in excl d = true)
    by (apply str_in_spec; exists a, b; exact Hd).
  assert (Hnoop : forall st,
             index_entries skip_types exclude_dirs include_files verbose
                           (os_walk d sub) st = st)
    by (intros st; apply (os_walk_excluded skip_types exclude_dirs
                            include_files verbose excl Hin sub d Hocc Hrel)).
  split; [| split].
  - intros dirs files st.
    apply (index_entry_excluded skip_types exclude_dirs include_files verbose
             excl Hin d dirs files st Hocc).
  - exact Hnoop.
  - destruct (subtree_walk_segment base_dir fs d sub Hsub) as [pre [post E]].
    exists pre, post. split; [exact E |].
    intros st. rewrite E, !index_entries_app, Hnoop. reflexivity.
Qed.

Lemma excluded_directory_is_never_indexed_witness :
  index_entries [] ["venv"] ["/proj/my_venv/x.txt"] true
    (os_walk "/proj/my_venv"
       (Dir [mkFile "x.txt" (Digest "H3") (Some 1)]
            (FCons "lib" (Dir [mkFile "y" (Digest "H4") (Some 1)] FNil) FNil)))
    (mkState [] 0 []) = mkState [] 0 [].
Proof.
  refine (proj1 (proj2
    (excluded_directory_is_never_indexed [] ["venv"] ["/proj/my_venv/x.txt"]
       true "/proj"
       (Dir [mkFile "a.txt" (Digest "H1") (Some 5)]
          (FCons "my_venv"
             (Dir [mkFile "x.txt" (Digest "H3") (Some 1)]
                (FCons "lib" (Dir [mkFile "y" (Digest "H4") (Some 1)] FNil) FNil))
             FNil))
       "/proj/my_venv"
       (Dir [mkFile "x.txt" (Digest "H3") (Some 1)]
          (FCons "lib" (Dir [mkFile "y" (Digest "H4") (Some 1)] FNil) FNil))
       "venv" "/proj/my_" "" _ _ _ _)) (mkState [] 0 [])).
  - apply subtree_below. apply subtree_first. apply subtree_here.
  - reflexivity.
  - simpl. left. reflexivity.
  - reflexivity.
Defined.

(** ** Read and stat failures *)

Section Failures.

Variables skip_types exclude_dirs include_files : list string.
Variable verbose : bool.

Lemma index_file_read_error (root : string) (st : run_state) (f : file)
  (message : string) :
  file_read f = ReadError message ->
  same_store (index_file skip_types include_files root st f) st.
Proof.
  intros Hr.
  destruct (index_file_cases skip_types include_files root st f)
    as [-> | Hadm]; [apply same_store_refl |].
  rewrite (index_file_admitted _ _ root st f Hadm).
  rewrite (store_file_error _ st f message Hr). apply same_store_print.
Qed.

Lemma index_entry_without_unread (root : string) (dirs : list string)
  (l1 l2 : list file) (f : file) (message : string) (st : run_state) :
  file_read f = ReadError message ->
  same_store
    (index_entry skip_types exclude_dirs include_files verbose st
                 (root, dirs, (l1 ++ f :: l2)%list))
    (index_entry skip_types exclude_dirs include_files verbose st
                 (root, dirs, (l1 ++ l2)%list)).
Proof.
  intros Hr. unfold index_entry.
  destruct (existsb _ exclude_dirs); [apply same_store_refl |].
  rewrite !fold_left_app. simpl.
  apply fold_left_same_store.
  - intros x y g. apply same_store_index_file.
  - apply (index_file_read_error root _ f message Hr).
Qed.

Lemma index_entry_stores (root : string) (dirs : list string)
  (files : list file) (f : file) (h : string) (st : run_state) :
  In f files ->
  (forall excl, In excl exclude_dirs -> str_in excl root = false) ->
  admitted skip_types include_files root f ->
  file_read f = Digest h -> h <> "" ->
  In (row_of root f h)
     (db (index_entry skip_types exclude_dirs include_files verbose st
                      (root, dirs, files))).
Proof.
  intros Hf Hexcl Hadm Hr Hh. unfold index_entry.
  rewrite (proj2 (exclude_test exclude_dirs root) Hexcl).
  destruct (in_split f files Hf) as [l1 [l2 ->]].
  rewrite fold_left_app. simpl.
  eapply extends_In.
  - apply (fold_left_extends file (fun _ => True)).
    intros st' x _. eapply extends_weaken; [| apply index_file_extends].
    intros r _. exact I.
  - rewrite (index_file_admitted _ _ root _ f Hadm).
    match goal with
    | |- In _ (db (store_file ?p ?s f)) =>
        destruct (store_file_digest p s f h Hr Hh) as [Hd _]; rewrite Hd
    end.
    apply in_or_app. right. left. reflexivity.
Qed.

Lemma index_entries_stores
  (entries : list (string * list string * list file))
  (root : string) (dirs : list string) (files : list file) (f : file)
  (h : string) (st : run_state) :
  In (root, dirs, files) entries -> In f files ->
  (forall excl, In excl exclude_dirs -> str_in excl root = false) ->
  admitted skip_types include_files root f ->
  file_read f = Digest h -> h <> "" ->
  In (row_of root f h)
     (db (index_entries skip_types exclude_dirs include_files verbose
                        entries st)).
Proof.
  intros He Hf Hexcl Hadm Hr Hh.
  destruct (in_split _ _ He) as [es1 [es2 ->]].
  rewrite index_entries_app, index_entries_cons.
  eapply extends_In.
  - apply (index_entries_extends skip_types exclude_dirs include_files verbose
             es2 es2 _ (incl_refl _)).
  - apply index_entry_stores; assumption.
Qed.

End Failures.

(** C7: a file that cannot be read leaves no row and does not stop the
    run: the table and the counter end as they would had the file not been
    listed, and an admitted file only adds the error line to the output.
    A file that is read but cannot be stat-ed is inserted with the size
    ["0B"]. *)
Theorem read_failure_skips_stat_failure_stores :
  forall (skip_types exclude_dirs include_files : list string) (verbose : bool)
         (base_dir : string) (fs : dirtree) (conn : list FileRecord)
         (root : string) (dirs : list string) (f : file),
    (forall message es1 es2 l1 l2 st,
        file_read f = ReadError message ->
        same_store
          (index_entries skip_types exclude_dirs include_files verbose
             (es1 ++ (root, dirs, (l1 ++ f :: l2)%list) :: es2) st)
          (index_entries skip_types exclude_dirs include_files verbose
             (es1 ++ (root, dirs, (l1 ++ l2)%list) :: es2) st)) /\
    (forall message st,
        file_read f = ReadError message ->
        admitted skip_types include_files root f ->
        index_file skip_types include_files root st f
        = print ("Error reading " ++ os_path_join root (file_name f)
                 ++ ": " ++ message) st) /\
    (forall h files,
        In (root, dirs, files) (os_walk base_dir fs) -> In f files ->
        (forall excl, In excl exclude_dirs -> str_in excl root = false) ->
        admitted skip_types include_files root f ->
        file_read f = Digest h -> h <> "" ->
        file_stat f = None ->
        In (mkFileRecord (os_path_join root (file_name f)) h "0B")
           (db (fst (index_directory base_dir fs conn skip_types exclude_dirs
                                     include_files verbose)))).
Proof.
  intros skip_types exclude_dirs include_files verbose base_dir fs conn
         root dirs f.
  split; [| split].
  - intros message es1 es2 l1 l2 st Hr.
    rewrite !index_entries_app, !index_entries_cons.
    apply same_store_index_entries.
    apply (index_entry_without_unread _ _ _ _ root dirs l1 l2 f message _ Hr).
  - intros message st Hr Hadm.
    rewrite (index_file_admitted _ _ root st f Hadm).
    apply store_file_error. exact Hr.
  - intros h files He Hf Hexcl Hadm Hr Hh Hstat.
    pose proof (index_entries_stores skip_types exclude_dirs include_files
                  verbose (os_walk base_dir fs) root dirs files f h
                  (mkState conn 0 []) He Hf Hexcl Hadm Hr Hh) as Hin.
    unfold row_of, size_hr_of in Hin. rewrite Hstat in Hin.
    unfold index_directory. simpl. exact Hin.
Qed.

Lemma read_failure_skips_stat_failure_stores_witness :
  In (mkFileRecord "/proj/d" "H2" "0B")
     (db (fst (index_directory "/proj"
                 (Dir [mkFile "c" (ReadError "denied") (Some 3);
                       mkFile "d" (Digest "H2") None] FNil)
                 [] [".log"] ["venv"] [] false))).
Proof.
  refine (proj2 (proj2
    (read_failure_skips_stat_failure_stores [".log"] ["venv"] [] false "/proj"
       (Dir [mkFile "c" (ReadError "denied") (Some 3);
             mkFile "d" (Digest "H2") None] FNil)
       [] "/proj" [] (mkFile "d" (Digest "H2") None)))
    "H2" [mkFile "c" (ReadError "denied") (Some 3);
          mkFile "d" (Digest "H2") None] _ _ _ _ _ _ _).
  - simpl. left. reflexivity.
  - simpl. right. left. reflexivity.
  - intros excl [<- | []]. reflexivity.
  - split; [left; reflexivity |]. intros ext [<- | []]. reflexivity.
  - reflexivity.
  - discriminate.
  - reflexivity.
Defined.

(** ** Rounding *)

Lemma round_half_even_bounds (m d : Z) :
  0 < d -> - d <= 2 * (round_half_even m d * d - m) <= d.
Proof.
  intros Hd. unfold round_half_even.
  pose proof (Z.div_mod m d ltac:(lia)) as E.
  pose proof (Z.mod_pos_bound m d Hd) as B.
  destruct (Z.ltb_spec (2 * (m mod d)) d); [nia |].
  destruct (Z.ltb_spec d (2 * (m mod d))); [nia |].
  destruct (Z.even (m / d)); nia.
Qed.

Lemma round_half_even_range (m d lo hi : Z) :
  0 < d -> lo * d <= m <= hi * d -> lo <= round_half_even m d <= hi.
Proof.
  intros Hd [Hlo Hhi]. unfold round_half_even.
  pose proof (Z.div_mod m d ltac:(lia)) as E.
  pose proof (Z.mod_pos_bound m d Hd) as B.
  assert (lo <= m / d) by (apply Z.div_le_lower_bound; lia).
  assert (m / d <= hi) by (apply Z.div_le_upper_bound; lia).
  assert (m mod d <> 0 -> m / d < hi) by nia.
  destruct (Z.ltb_spec (2 * (m mod d)) d); [lia |].
  destruct (Z.ltb_spec d (2 * (m mod d))); [lia |].
  destruct (Z.even (m / d)); lia.
Qed.

Lemma round_half_even_one (m : Z) : round_half_even m 1 = m.
Proof.
  unfold round_half_even. rewrite Z.mod_1_r, Z.div_1_r. reflexivity.
Qed.

Lemma round53_small (n : Z) : 0 <= n < 2 ^ 53 -> round53 n = n.
Proof.
  intros [H0 H1]. unfold round53.
  destruct (Z.leb_spec (Z.log2 n - 52) 0) as [_ | Hs]; [reflexivity |].
  assert (Hn : 0 < n) by (destruct n; simpl in Hs; lia).
  pose proof (proj1 (Z.log2_lt_pow2 n 53 Hn) H1). lia.
Qed.

Lemma round53_large (n : Z) :
  2 ^ 53 <= n ->
  2 ^ 53 <= round53 n <= 2 ^ (Z.log2 n + 1) /\
  - n <= 2 ^ 53 * (round53 n - n) <= n.
Proof.
  intros Hn. unfold round53.
  assert (Hpos : 0 < n) by lia.
  assert (Hlog : 53 <= Z.log2 n) by (apply Z.log2_le_pow2; lia).
  destruct (Z.log2_spec n Hpos) as [Hlo Hhi].
  destruct (Z.leb_spec (Z.log2 n - 52) 0) as [Hs | Hs]; [lia |].
  set (s := Z.log2 n - 52) in *.
  assert (Hd : 0 < 2 ^ s) by (apply Z.pow_pos_nonneg; lia).
  assert (E1 : 2 ^ Z.log2 n = 2 ^ 52 * 2 ^ s)
    by (rewrite <- Z.pow_add_r by lia; f_equal; lia).
  assert (E2 : 2 ^ Z.succ (Z.log2 n) = 2 ^ 53 * 2 ^ s)
    by (rewrite <- Z.pow_add_r by lia; f_equal; lia).
  assert (E3 : 2 ^ (Z.log2 n + 1) = 2 ^ 53 * 2 ^ s)
    by (rewrite <- Z.pow_add_r by lia; f_equal; lia).
  assert (E4 : 2 ^ s = 2 * 2 ^ (s - 1))
    by (rewrite <- Z.pow_succ_r by lia; f_equal; lia).
  assert (Hd' : 0 < 2 ^ (s - 1)) by (apply Z.pow_pos_nonneg; lia).
  pose proof (round_half_even_bounds n (2 ^ s) Hd) as B.
  pose proof (round_half_even_range n (2 ^ s) (2 ^ 52) (2 ^ 53) Hd
                ltac:(lia)) as R.
  set (q := round_half_even n (2 ^ s)) in *.
  rewrite E3. split; [nia |].
  assert (2 ^ 53 * 2 ^ (s - 1) <= n) by lia.
  nia.
Qed.

Lemma round53_bound (n : Z) (k : Z) :
  53 <= k -> 0 <= n < 2 ^ k -> 0 <= round53 n <= 2 ^ k.
Proof.
  intros Hk [H0 H1].
  destruct (Z.lt_ge_cases n (2 ^ 53)) as [Hs | Hl].
  - rewrite round53_small by lia.
    assert (2 ^ 53 <= 2 ^ k) by (apply Z.pow_le_mono_r; lia). lia.
  - destruct (round53_large n Hl) as [[Ha Hb] _].
    assert (Z.log2 n < k) by (apply Z.log2_lt_pow2; lia).
    assert (2 ^ (Z.log2 n + 1) <= 2 ^ k) by (apply Z.pow_le_mono_r; lia).
    lia.
Qed.

Lemma float_of_int_nonneg (n : Z) : 0 <= n -> float_of_int n = round53 n.
Proof.
  intros Hn. unfold float_of_int. destruct n as [| p | p]; try lia.
  - reflexivity.
  - change (Z.sgn (Z.pos p)) with 1. change (Z.abs (Z.pos p)) with (Z.pos p).
    apply Z.mul_1_l.
Qed.

(** ** The encoder *)

Lemma human_readable_float (m : Z) :
  human_readable_loop ["K"; "M"; "G"; "T"] (PyFloat m (-10)) =
  if m <? 1024 ^ 2 then Return (str_int (round_half_even m (1024 ^ 1)) ++ "K")
  else if m <? 1024 ^ 3 then Return (str_int (round_half_even m (1024 ^ 2)) ++ "M")
  else if m <? 1024 ^ 4 then Return (str_int (round_half_even m (1024 ^ 3)) ++ "G")
  else if m <? 1024 ^ 5 then Return (str_int (round_half_even m (1024 ^ 4)) ++ "T")
  else Return (str_int (round_half_even m (1024 ^ 5)) ++ "P").
Proof. reflexivity. Qed.

Lemma human_readable_size_small (n : Z) :
  0 <= n < 1024 -> human_readable_size n = Return (str_int n ++ "B").
Proof.
  intros Hn. unfold human_readable_size.
  change (human_readable_loop ("B" :: ?r) (PyInt n))
    with (if n <? 1024
          then digits <- format_0f (PyInt n) ;; Return (digits ++ "B")
          else size_bytes' <- truediv_1024 (PyInt n) ;;
               human_readable_loop ["K"; "M"; "G"; "T"] size_bytes').
  destruct (Z.ltb_spec n 1024); [| lia].
  unfold format_0f. rewrite float_of_int_nonneg, round53_small by lia.
  destruct (Z.leb_spec (2 ^ 1024) (Z.abs n)); [lia | reflexivity].
Qed.

Lemma round53_nonneg (n : Z) : 0 <= n -> 0 <= round53 n.
Proof.
  intros Hn. destruct (Z.lt_ge_cases n (2 ^ 53)) as [Hs | Hl].
  - rewrite round53_small; lia.
  - destruct (round53_large n Hl) as [[Ha _] _]. lia.
Qed.

Lemma round53_threshold (n t : Z) :
  0 <= n -> t <= 2 ^ 53 -> (round53 n <? t) = (n <? t).
Proof.
  intros Hn Ht. destruct (Z.lt_ge_cases n (2 ^ 53)) as [Hs | Hl].
  - rewrite round53_small; [reflexivity | lia].
  - destruct (round53_large n Hl) as [[Ha _] _].
    destruct (Z.ltb_spec (round53 n) t), (Z.ltb_spec n t); try reflexivity; lia.
Qed.

Lemma human_readable_size_large (n : Z) :
  1024 <= n ->
  human_readable_size n
  = if 2 ^ 1034 <=? round53 n then Raise OverflowError
    else human_readable_loop ["K"; "M"; "G"; "T"] (PyFloat (round53 n) (-10)).
Proof.
  intros Hn. unfold human_readable_size.
  change (human_readable_loop ("B" :: ?r) (PyInt n))
    with (if n <? 1024
          then digits <- format_0f (PyInt n) ;; Return (digits ++ "B")
          else size_bytes' <- truediv_1024 (PyInt n) ;;
               human_readable_loop ["K"; "M"; "G"; "T"] size_bytes').
  destruct (Z.ltb_spec n 1024); [lia |].
  unfold truediv_1024. rewrite float_of_int_nonneg by lia.
  rewrite Z.abs_eq by (apply round53_nonneg; lia).
  destruct (2 ^ 1034 <=? round53 n); reflexivity.
Qed.

Lemma human_readable_size_in_range (n : Z) :
  1024 <= n < 2 ^ 1024 ->
  human_readable_size n
  = human_readable_loop ["K"; "M"; "G"; "T"] (PyFloat (round53 n) (-10)).
Proof.
  intros Hn. rewrite human_readable_size_large by lia.
  pose proof (round53_bound n 1024 ltac:(lia) ltac:(lia)) as B.
  destruct (Z.leb_spec (2 ^ 1034) (round53 n)); [| reflexivity].
  assert (2 ^ 1024 < 2 ^ 1034) by (apply Z.pow_lt_mono_r; lia). lia.
Qed.

(** The unit chosen for [n], case by case. *)
Lemma spec_scale_cases (n : Z) :
  (n < 1024 /\ spec_scale ["B"; "K"; "M"; "G"; "T"] n 0 = (0, "B")) \/
  (1024 <= n < 1024 ^ 2 /\ spec_scale ["B"; "K"; "M"; "G"; "T"] n 0 = (1, "K")) \/
  (1024 ^ 2 <= n < 1024 ^ 3 /\ spec_scale ["B"; "K"; "M"; "G"; "T"] n 0 = (2, "M")) \/
  (1024 ^ 3 <= n < 1024 ^ 4 /\ spec_scale ["B"; "K"; "M"; "G"; "T"] n 0 = (3, "G")) \/
  (1024 ^ 4 <= n < 1024 ^ 5 /\ spec_scale ["B"; "K"; "M"; "G"; "T"] n 0 = (4, "T")) \/
  (1024 ^ 5 <= n /\ spec_scale ["B"; "K"; "M"; "G"; "T"] n 0 = (5, "P")).
Proof.
  change (spec_scale ["B"; "K"; "M"; "G"; "T"] n 0)
    with (if n <? 1024 then (0, "B")
          else if n <? 1024 ^ 2 then (1, "K")
          else if n <? 1024 ^ 3 then (2, "M")
          else if n <? 1024 ^ 4 then (3, "G")
          else if n <? 1024 ^ 5 then (4, "T")
          else (5, "P")).
  destruct (Z.ltb_spec n 1024); [left; split; [lia | reflexivity] |].
  destruct (Z.ltb_spec n (1024 ^ 2)); [right; left; split; [lia | reflexivity] |].
  destruct (Z.ltb_spec n (1024 ^ 3));
    [right; right; left; split; [lia | reflexivity] |].
  destruct (Z.ltb_spec n (1024 ^ 4));
    [right; right; right; left; split; [lia | reflexivity] |].
  destruct (Z.ltb_spec n (1024 ^ 5));
    [right; right; right; right; left; split; [lia | reflexivity] |].
  right; right; right; right; right. split; [lia | reflexivity].
Qed.

(** The float loop in terms of the byte count itself: the thresholds lie
    below [2^53], where [round53] changes nothing. *)
Lemma human_readable_float_of (n : Z) :
  1024 <= n ->
  human_readable_loop ["K"; "M"; "G"; "T"] (PyFloat (round53 n) (-10)) =
  Return (let (k, unit) := spec_scale ["B"; "K"; "M"; "G"; "T"] n 0 in
          str_int (round_half_even (round53 n) (1024 ^ k)) ++ unit).
Proof.
  intros Hn. rewrite human_readable_float.
  rewrite !round53_threshold by lia.
  destruct (spec_scale_cases n)
    as [[H E] | [[H E] | [[H E] | [[H E] | [[H E] | [H E]]]]]]; rewrite E.
  - lia.
  - destruct (Z.ltb_spec n (1024 ^ 2)); [reflexivity | lia].
  - destruct (Z.ltb_spec n (1024 ^ 2)); [lia |].
    destruct (Z.ltb_spec n (1024 ^ 3)); [reflexivity | lia].
  - destruct (Z.ltb_spec n (1024 ^ 2)); [lia |].
    destruct (Z.ltb_spec n (1024 ^ 3)); [lia |].
    destruct (Z.ltb_spec n (1024 ^ 4)); [reflexivity | lia].
  - destruct (Z.ltb_spec n (1024 ^ 2)); [lia |].
    destruct (Z.ltb_spec n (1024 ^ 3)); [lia |].
    destruct (Z.ltb_spec n (1024 ^ 4)); [lia |].
    destruct (Z.ltb_spec n (1024 ^ 5)); [reflexivity | lia].
  - destruct (Z.ltb_spec n (1024 ^ 2)); [lia |].
    destruct (Z.ltb_spec n (1024 ^ 3)); [lia |].
    destruct (Z.ltb_spec n (1024 ^ 4)); [lia |].
    destruct (Z.ltb_spec n (1024 ^ 5)); [lia | reflexivity].
Qed.

(** The encoder on every byte count of the binary64 range. *)
Lemma human_readable_size_eval (n : Z) :
  0 <= n < 2 ^ 1024 ->
  human_readable_size n =
  Return (let (k, unit) := spec_scale ["B"; "K"; "M"; "G"; "T"] n 0 in
          str_int (round_half_even (round53 n) (1024 ^ k)) ++ unit).
Proof.
  intros Hn. destruct (Z.lt_ge_cases n 1024) as [Hs | Hl].
  - rewrite human_readable_size_small by lia.
    destruct (spec_scale_cases n)
      as [[H E] | [[H E] | [[H E] | [[H E] | [[H E] | [H E]]]]]];
      rewrite E; try lia.
    change (1024 ^ 0) with 1.
    rewrite round_half_even_one, round53_small by lia. reflexivity.
  - rewrite human_readable_size_in_range by lia.
    apply human_readable_float_of. exact Hl.
Qed.

Lemma round_half_even_nonneg (m d : Z) :
  0 <= m -> 0 < d -> 0 <= round_half_even m d.
Proof.
  intros Hm Hd.
  apply (round_half_even_range m d 0 m Hd). nia.
Qed.

Lemma granularity_pos (n : Z) : 0 < granularity n.
Proof.
  unfold granularity.
  destruct (spec_scale_cases n)
    as [[H E] | [[H E] | [[H E] | [[H E] | [[H E] | [H E]]]]]];
    rewrite E; reflexivity.
Qed.

(** The encoder wherever the first division stays in the binary64 range. *)
Lemma human_readable_size_rounded (n : Z) :
  0 <= n -> round53 n < 2 ^ 1034 ->
  human_readable_size n =
  Return (let (k, unit) := spec_scale ["B"; "K"; "M"; "G"; "T"] n 0 in
          str_int (round_half_even (round53 n) (1024 ^ k)) ++ unit).
Proof.
  intros Hn Hr. destruct (Z.lt_ge_cases n 1024) as [Hs | Hl].
  - apply human_readable_size_eval.
    assert (2 ^ 10 < 2 ^ 1024) by (apply Z.pow_lt_mono_r; lia). lia.
  - rewrite human_readable_size_large by exact Hl.
    destruct (Z.leb_spec (2 ^ 1034) (round53 n)); [lia |].
    apply human_readable_float_of. exact Hl.
Qed.

Lemma human_readable_size_overflow (n : Z) :
  0 <= n -> 2 ^ 1034 <= round53 n ->
  human_readable_size n = Raise OverflowError.
Proof.
  intros Hn Hr.
  assert (H10 : 2 ^ 10 < 2 ^ 53) by (apply Z.pow_lt_mono_r; lia).
  assert (H53 : 2 ^ 53 < 2 ^ 1034) by (apply Z.pow_lt_mono_r; lia).
  destruct (Z.lt_ge_cases n 1024) as [Hs | Hl].
  - rewrite round53_small in Hr by lia. lia.
  - rewrite human_readable_size_large by exact Hl.
    destruct (Z.leb_spec (2 ^ 1034) (round53 n)); [reflexivity | lia].
Qed.

(** C5, within the binary64 range.  The encoder divides by 1024 until the
    value is below 1024, at most five times, and writes the quotient
    rounded to an integer, as decimal digits only, followed by the unit
    reached.  It returns that text for every count [n >= 0] whose rounding
    to binary64 is below [2^1034], so for every [n < 2^1024]; while the
    count has at most 53 significant bits the text is the one exact
    arithmetic gives.  Every such count of [1024^5] or more is written
    with the unit ["P"].  For a count whose rounding reaches [2^1034] the
    first division raises [OverflowError] and nothing is written. *)
Theorem size_encoder_units :
  forall n : Z,
    0 <= n ->
    (n < 2 ^ 1024 -> round53 n < 2 ^ 1034) /\
    (round53 n < 2 ^ 1034 ->
     exists q,
       human_readable_size n
       = Return (str_int q ++ snd (spec_scale ["B"; "K"; "M"; "G"; "T"] n 0)) /\
       q = round_half_even (round53 n) (granularity n) /\
       0 <= q /\ string_forall is_digit (str_int q) = true) /\
    (n < 2 ^ 53 -> human_readable_size n = Return (spec_encode n)) /\
    (1024 ^ 5 <= n -> round53 n < 2 ^ 1034 ->
     exists q, 0 <= q /\ human_readable_size n = Return (str_int q ++ "P")) /\
    (2 ^ 1034 <= round53 n -> human_readable_size n = Raise OverflowError) /\
    human_readable_size 1023 = Return "1023B" /\
    human_readable_size 1024 = Return "1K" /\
    human_readable_size (1024 ^ 5) = Return "1P".
Proof.
  intros n Hn.
  assert (Hq : 0 <= round_half_even (round53 n) (granularity n))
    by (apply round_half_even_nonneg;
        [apply round53_nonneg; exact Hn | apply granularity_pos]).
  assert (Hin : n < 2 ^ 1024 -> round53 n < 2 ^ 1034).
  { intros Hr. pose proof (round53_bound n 1024 ltac:(lia) ltac:(lia)) as B.
    assert (2 ^ 1024 < 2 ^ 1034) by (apply Z.pow_lt_mono_r; lia). lia. }
  split; [exact Hin |]. split; [| split; [| split; [| split]]].
  - intros Hr. exists (round_half_even (round53 n) (granularity n)).
    split; [| split; [reflexivity | split; [exact Hq |]]].
    + rewrite human_readable_size_rounded by assumption. unfold granularity.
      destruct (spec_scale ["B"; "K"; "M"; "G"; "T"] n 0). reflexivity.
    + apply str_int_digits. exact Hq.
  - intros Hs. rewrite human_readable_size_eval.
    + rewrite round53_small by lia. reflexivity.
    + assert (2 ^ 53 < 2 ^ 1024) by (apply Z.pow_lt_mono_r; lia). lia.
  - intros Hbig Hr.
    exists (round_half_even (round53 n) (granularity n)).
    split; [exact Hq |].
    rewrite human_readable_size_rounded by assumption. unfold granularity.
    destruct (spec_scale_cases n)
      as [[H E] | [[H E] | [[H E] | [[H E] | [[H E] | [H E]]]]]]; try lia.
    rewrite E. reflexivity.
  - intros Hov. apply human_readable_size_overflow; assumption.
  - repeat split.
Qed.

Lemma size_encoder_units_witness :
  exists q, 0 <= q /\
            human_readable_size (3 * 1024 ^ 5) = Return (str_int q ++ "P").
Proof.
  refine (proj1 (proj2 (proj2 (proj2
            (size_encoder_units (3 * 1024 ^ 5) ltac:(lia))))) _ _).
  - lia.
  - vm_compute. reflexivity.
Defined.

(** C5, as it is worded for every value beyond [1024^5], fails once the
    first division leaves the binary64 range: for [2^1034] the encoder
    raises [OverflowError] and reports nothing. *)
Lemma huge_count_is_not_reported : ~ reported_with_unit_P (2 ^ 1034).
Proof.
  intros [digits H]. vm_compute in H. discriminate H.
Qed.

(** ** The decoder *)

Lemma unit_letter_any_case (c : ascii) (u : Z) :
  units (upper_char c) = Some u ->
  is_ascii c = true /\ 0 < u <= 1024 ^ 5.
Proof.
  destruct c as [[|] [|] [|] [|] [|] [|] [|] [|]]; simpl; intros H;
    try discriminate; injection H as <-; repeat split; discriminate.
Qed.

(** Digits followed by a unit letter of either case decode to the value of
    the digits times the table entry. *)
Lemma size_to_bytes_encoded (q : Z) (c : ascii) (u : Z) :
  0 <= q < 2 ^ 53 -> units (upper_char c) = Some u ->
  size_to_bytes (str_int q ++ String c "") = Return (q * u).
Proof.
  intros Hq Hu. destruct (unit_letter_any_case c u Hu) as [Ha Hb].
  assert (Hdig := str_int_digits q (proj1 Hq)).
  unfold size_to_bytes.
  rewrite string_forall_app, (digits_ascii _ Hdig). simpl string_forall.
  rewrite Ha. simpl negb.
  rewrite upper_app, (upper_digits _ Hdig). simpl upper.
  rewrite split_last_app, Hu.
  unfold int_float_times. rewrite (digits_value_str_int q (proj1 Hq)).
  rewrite round53_small by exact Hq.
  destruct (Z.leb_spec (2 ^ 1024) (q * u)) as [Hov | _]; [| reflexivity].
  assert (q * u <= 2 ^ 53 * 1024 ^ 5) by nia.
  assert (2 ^ 53 * 1024 ^ 5 = 2 ^ 103) by reflexivity.
  assert (2 ^ 103 < 2 ^ 1024) by (apply Z.pow_lt_mono_r; lia). lia.
Qed.

Lemma size_to_bytes_upper (s : string) :
  size_to_bytes (upper s) = size_to_bytes s.
Proof.
  unfold size_to_bytes. rewrite upper_ascii, upper_idem. reflexivity.
Qed.

Lemma size_to_bytes_no_unit (s body : string) (c : ascii) :
  string_forall is_ascii s = true ->
  split_last (upper s) = Some (body, c) -> units c = None ->
  size_to_bytes s = py_int (upper s).
Proof.
  intros Ha Hs Hu. unfold size_to_bytes. rewrite Ha, Hs, Hu. reflexivity.
Qed.

(** The shape of an encoded size below [2^102]: at most 16 digits and the
    letter whose table entry is the granularity. *)
Lemma human_readable_size_shape (n : Z) :
  0 <= n < 2 ^ 102 ->
  exists c,
    units c = Some (granularity n) /\
    human_readable_size n
    = Return (str_int (round_half_even (round53 n) (granularity n))
              ++ String c "") /\
    0 <= round_half_even (round53 n) (granularity n) <= 2 ^ 52.
Proof.
  intros Hn.
  assert (H1024 : 2 ^ 102 < 2 ^ 1024) by (apply Z.pow_lt_mono_r; lia).
  assert (Hmb := round53_bound n 102 ltac:(lia) Hn).
  assert (Hm : n < 2 ^ 53 -> round53 n = n)
    by (intros; apply round53_small; lia).
  rewrite human_readable_size_eval by lia. unfold granularity.
  destruct (spec_scale_cases n)
    as [[H E] | [[H E] | [[H E] | [[H E] | [[H E] | [H E]]]]]]; rewrite E;
    simpl fst;
    match goal with
    | |- context [(_ ++ String ?c "")%string] => exists c
    end;
    (split; [reflexivity |]); (split; [reflexivity |]);
    apply round_half_even_range; try reflexivity;
    try (rewrite Hm by lia); lia.
Qed.

Lemma granularity_large (n : Z) : 2 ^ 53 <= n -> granularity n = 2 ^ 50.
Proof.
  intros Hn. unfold granularity.
  destruct (spec_scale_cases n)
    as [[H E] | [[H E] | [[H E] | [[H E] | [[H E] | [H E]]]]]]; rewrite E;
    try lia.
  reflexivity.
Qed.

(** The round trip below [2^102]. *)
Lemma roundtrip_bound (n : Z) :
  0 <= n < 2 ^ 102 ->
  exists s v,
    human_readable_size n = Return s /\
    size_to_bytes s = Return v /\
    Z.abs (v - n) < granularity n /\
    (n < 2 ^ 53 -> 2 * Z.abs (v - n) <= granularity n).
Proof.
  intros Hn.
  destruct (human_readable_size_shape n Hn) as [c [Hu [Hs Hq]]].
  pose proof (granularity_pos n) as Hg.
  pose proof (round_half_even_bounds (round53 n) (granularity n) Hg) as B.
  set (q := round_half_even (round53 n) (granularity n)) in *.
  exists (str_int q ++ String c ""), (q * granularity n).
  split; [exact Hs |].
  split.
  - apply size_to_bytes_encoded; [lia |].
    destruct (unit_letter_cases c _ Hu) as [_ [_ [-> _]]]. exact Hu.
  - destruct (Z.lt_ge_cases n (2 ^ 53)) as [Hsmall | Hbig].
    + rewrite round53_small in B by lia. split; [lia | intros _; lia].
    + destruct (round53_large n Hbig) as [_ Hl].
      rewrite (granularity_large n Hbig) in *. split; [lia | intros; lia].
Qed.

(** Every size the indexer writes for a file below [2^102] bytes is one the
    threshold query decodes exactly. *)
Lemma size_hr_modelled (f : file) (p h : string) :
  (forall n, file_stat f = Some n -> 0 <= n < 2 ^ 102) ->
  size_modelled (mkFileRecord p h (size_hr_of f)) = true.
Proof.
  intros Hstat. unfold size_modelled, size_hr_of. simpl size.
  destruct (file_stat f) as [n |]; [| reflexivity].
  destruct (human_readable_size_shape n (Hstat n eq_refl)) as [c [Hu [Hs Hq]]].
  assert (Hq' : 0 <= round_half_even (round53 n) (granularity n) < 2 ^ 53)
    by lia.
  rewrite Hs, (sql_size_bytes_encoded _ c _ Hq' Hu). reflexivity.
Qed.

(** C6, within binary64 precision: below [2^102] (so for every size a
    64-bit [st_size] can hold) decoding the encoded size returns a count
    that differs from [n] by less than one unit of the granularity chosen
    for [n], and by at most half a unit while [n] has at most 53
    significant bits.  The decoder upper-cases its argument, so the unit
    letter is matched in either case against the [units] table, and a text
    whose last character is no unit is handed whole to [int]. *)
Theorem roundtrip_within_one_unit :
  forall n : Z,
    0 <= n < 2 ^ 102 ->
    (exists s v,
        human_readable_size n = Return s /\
        size_to_bytes s = Return v /\
        Z.abs (v - n) < granularity n /\
        (n < 2 ^ 53 -> 2 * Z.abs (v - n) <= granularity n)) /\
    (forall q c u,
        0 <= q < 2 ^ 53 -> units (upper_char c) = Some u ->
        size_to_bytes (str_int q ++ String c "") = Return (q * u)) /\
    (forall s, size_to_bytes (upper s) = size_to_bytes s) /\
    (forall s body c,
        string_forall is_ascii s = true ->
        split_last (upper s) = Some (body, c) -> units c = None ->
        size_to_bytes s = py_int (upper s)) /\
    human_readable_size 1536 = Return "2K" /\
    size_to_bytes "2K" = Return 2048 /\
    size_to_bytes "2k" = Return 2048 /\
    size_to_bytes "2048" = Return 2048.
Proof.
  intros n Hn.
  split; [apply roundtrip_bound; exact Hn |].
  split; [intros q c u; apply size_to_bytes_encoded |].
  split; [apply size_to_bytes_upper |].
  split; [apply size_to_bytes_no_unit |].
  repeat split.
Qed.

Lemma roundtrip_within_one_unit_witness :
  exists s v,
    human_readable_size 1536 = Return s /\
    size_to_bytes s = Return v /\
    Z.abs (v - 1536) < granularity 1536 /\
    (1536 < 2 ^ 53 -> 2 * Z.abs (v - 1536) <= granularity 1536).
Proof.
  apply (proj1 (roundtrip_within_one_unit 1536 ltac:(lia))).
Defined.

(** C6, as it is worded for every [n >= 0], fails once [n] has more
    significant bits than a binary64 keeps: [2^200 + 2^146] is encoded with
    the unit ["P"] and decoded to [2^200], which is [2^146] away, far more
    than the [2^50] of that unit. *)
Lemma roundtrip_loses_precision :
  ~ roundtrip_within_granularity (2 ^ 200 + 2 ^ 146).
Proof.
  intros [s [v [Hs [Hv Hb]]]].
  vm_compute in Hs. injection Hs as <-.
  vm_compute in Hv. injection Hv as <-.
  vm_compute in Hb. discriminate Hb.
Qed.


(** * Further properties of the code *)

(** ** The rows of a run in closed form *)

Section ClosedForm.

Variables skip_types exclude_dirs include_files : list string.
Variable verbose : bool.

Lemma admits_admitted (root : string) (f : file) :
  admits skip_types include_files root f = true <->
  admitted skip_types include_files root f.
Proof.
  unfold admits, admitted. rewrite andb_true_iff, !negb_true_iff.
  rewrite include_test, skip_test. tauto.
Qed.

Lemma index_file_rows (root : string) (st : run_state) (f : file) :
  db (index_file skip_types include_files root st f)
  = (db st ++ file_rows skip_types include_files root f)%list /\
  file_count (index_file skip_types include_files root st f)
  = file_count st
    + Z.of_nat (List.length (file_rows skip_types include_files root f)).
Proof.
  unfold file_rows.
  destruct (admits skip_types include_files root f) eqn:Ha.
  - apply admits_admitted in Ha.
    rewrite (index_file_admitted _ _ root st f Ha).
    destruct (file_read f) as [h | e] eqn:Hr.
    + destruct (String.eqb_spec h "") as [-> | Hne].
      * unfold store_file, hash_file. rewrite Hr. simpl.
        rewrite List.app_nil_r. split; [reflexivity | lia].
      * destruct (store_file_digest (os_path_join root (file_name f)) st f h
                    Hr Hne) as [Hd Hc].
        rewrite Hd, Hc. split; [reflexivity | simpl; lia].
    + rewrite (store_file_error _ st f e Hr). simpl.
      rewrite List.app_nil_r. split; [reflexivity | lia].
  - destruct (index_file_cases skip_types include_files root st f)
      as [-> | Hadm].
    + simpl. rewrite List.app_nil_r. split; [reflexivity | lia].
    + apply admits_admitted in Hadm. congruence.
Qed.

Lemma index_files_rows (root : string) (files : list file) :
  forall st,
    db (fold_left (index_file skip_types include_files root) files st)
    = (db st ++ flat_map (file_rows skip_types include_files root) files)%list /\
    file_count (fold_left (index_file skip_types include_files root) files st)
    = file_count st
      + Z.of_nat (List.length
                    (flat_map (file_rows skip_types include_files root) files)).
Proof.
  induction files as [| f files IH]; intros st; simpl.
  - rewrite List.app_nil_r. split; [reflexivity | lia].
  - destruct (IH (index_file skip_types include_files root st f)) as [Hd Hc].
    destruct (index_file_rows root st f) as [Hd1 Hc1].
    rewrite Hd, Hc, Hd1, Hc1, List.length_app, <- List.app_assoc.
    split; [reflexivity | lia].
Qed.

Lemma index_entry_rows (st : run_state)
  (entry : string * list string * list file) :
  db (index_entry skip_types exclude_dirs include_files verbose st entry)
  = (db st ++ entry_rows skip_types exclude_dirs include_files entry)%list /\
  file_count (index_entry skip_types exclude_dirs include_files verbose st entry)
  = file_count st
    + Z.of_nat (List.length
                  (entry_rows skip_types exclude_dirs include_files entry)).
Proof.
  destruct entry as [[root dirs] files]. unfold index_entry, entry_rows.
  destruct (existsb (fun excl => str_in excl root) exclude_dirs).
  - simpl. rewrite List.app_nil_r. split; [reflexivity | lia].
  - destruct (index_files_rows root files
                (if verbose then print ("Scanning directory: " ++ root) st
                 else st)) as [Hd Hc].
    rewrite Hd, Hc. destruct verbose; split; reflexivity.
Qed.

Lemma index_entries_rows (entries : list (string * list string * list file)) :
  forall st,
    db (index_entries skip_types exclude_dirs include_files verbose entries st)
    = (db st ++ walk_rows skip_types exclude_dirs include_files entries)%list /\
    file_count (index_entries skip_types exclude_dirs include_files verbose
                              entries st)
    = file_count st
      + Z.of_nat (List.length
                    (walk_rows skip_types exclude_dirs include_files entries)).
Proof.
  induction entries as [| e entries IH]; intros st.
  - simpl. rewrite List.app_nil_r. split; [reflexivity | lia].
  - rewrite index_entries_cons.
    destruct (IH (index_entry skip_types exclude_dirs include_files verbose
                              st e)) as [Hd Hc].
    destruct (index_entry_rows st e) as [Hd1 Hc1].
    rewrite Hd, Hc, Hd1, Hc1. unfold walk_rows. simpl flat_map.
    rewrite List.length_app, <- List.app_assoc. split; [reflexivity | lia].
Qed.

End ClosedForm.

(** X1: a run leaves the rows already in the table untouched and appends,
    in walk order, one row for each file that sits in a directory matching
    no exclusion, passes the include and suffix tests and is read with a
    non-empty digest; [file_count] ends as the number of those rows.  The
    appended rows depend neither on the rows already present nor on
    [verbose]. *)
Theorem index_directory_rows :
  forall (base_dir : string) (fs : dirtree) (conn : list FileRecord)
         (skip_types exclude_dirs include_files : list string) (verbose : bool),
    db (fst (index_directory base_dir fs conn skip_types exclude_dirs
                             include_files verbose))
    = (conn ++ walk_rows skip_types exclude_dirs include_files
                         (os_walk base_dir fs))%list /\
    file_count (fst (index_directory base_dir fs conn skip_types exclude_dirs
                                     include_files verbose))
    = Z.of_nat (List.length (walk_rows skip_types exclude_dirs include_files
                                       (os_walk base_dir fs))).
Proof.
  intros base_dir fs conn skip_types exclude_dirs include_files verbose.
  destruct (index_entries_rows skip_types exclude_dirs include_files verbose
              (os_walk base_dir fs) (mkState conn 0 [])) as [Hd Hc].
  unfold index_directory. simpl. rewrite Hd, Hc. split; reflexivity.
Qed.

(** ** Running the indexer again *)

Lemma rows_with_app (h : string) (l1 l2 : list FileRecord) :
  rows_with h (l1 ++ l2) = (rows_with h l1 ++ rows_with h l2)%list.
Proof. unfold rows_with. apply filter_app. Qed.

Lemma rows_with_member (h : string) (l : list FileRecord) (r : FileRecord) :
  In r l -> hash r = h -> (1 <= List.length (rows_with h l))%nat.
Proof.
  intros Hin Hh.
  assert (Hr : In r (rows_with h l)) by (apply rows_with_hash; split; assumption).
  destruct (rows_with h l); [contradiction | simpl; lia].
Qed.

(** X2: the table is append-only and a run never looks at it.  Indexing the
    same tree twice with the same filters stores every row of the first run
    a second time, so the unfiltered report then lists the hash of every
    indexed file as a duplicate. *)
Theorem reindex_duplicates_every_file :
  forall (base_dir : string) (fs : dirtree) (conn : list FileRecord)
         (skip_types exclude_dirs include_files : list string)
         (verbose verbose' : bool),
  exists added groups,
    db (fst (index_directory base_dir fs conn skip_types exclude_dirs
                             include_files verbose)) = (conn ++ added)%list /\
    db (fst (index_directory base_dir fs
               (db (fst (index_directory base_dir fs conn skip_types
                                         exclude_dirs include_files verbose)))
               skip_types exclude_dirs include_files verbose'))
    = (conn ++ added ++ added)%list /\
    find_duplicates (conn ++ added ++ added) None = Return groups /\
    forall r, In r added -> exists paths, In (hash r, paths) groups.
Proof.
  intros base_dir fs conn skip_types exclude_dirs include_files verbose verbose'.
  exists (walk_rows skip_types exclude_dirs include_files (os_walk base_dir fs)).
  exists (select_duplicates
            (conn ++ walk_rows skip_types exclude_dirs include_files
                               (os_walk base_dir fs)
                  ++ walk_rows skip_types exclude_dirs include_files
                               (os_walk base_dir fs))).
  destruct (index_directory_rows base_dir fs conn skip_types exclude_dirs
              include_files verbose) as [Hd1 _].
  split; [exact Hd1 |]. split; [| split; [reflexivity |]].
  - destruct (index_directory_rows base_dir fs
                (db (fst (index_directory base_dir fs conn skip_types
                                          exclude_dirs include_files verbose)))
                skip_types exclude_dirs include_files verbose') as [Hd2 _].
    rewrite Hd2, Hd1, <- List.app_assoc. reflexivity.
  - intros r Hr. eexists. apply select_duplicates_spec. split; [| reflexivity].
    rewrite !rows_with_app, !List.length_app.
    pose proof (rows_with_member (hash r) _ r Hr eq_refl). lia.
Qed.

(** ** Filters only take rows away *)

Section FilterOrder.

Variables skip_types skip_types' exclude_dirs exclude_dirs' : list string.
Variables include_files include_files' : list string.
Hypothesis more_skipped : incl skip_types skip_types'.
Hypothesis more_excluded : incl exclude_dirs exclude_dirs'.
Hypothesis fewer_included :
  include_files = [] \/
  (include_files' <> [] /\ incl include_files' include_files).

Lemma admitted_weaken (root : string) (f : file) :
  admitted skip_types' include_files' root f ->
  admitted skip_types include_files root f.
Proof.
  intros [Hinc Hskip]. split.
  - destruct fewer_included as [-> | [Hne Hsub]]; [left; reflexivity |].
    destruct Hinc as [E | Hin]; [contradiction |]. right. apply Hsub, Hin.
  - intros ext Hext. apply Hskip, more_skipped, Hext.
Qed.

Lemma file_rows_weaken (root : string) (f : file) (r : FileRecord) :
  In r (file_rows skip_types' include_files' root f) ->
  In r (file_rows skip_types include_files root f).
Proof.
  unfold file_rows.
  destruct (admits skip_types' include_files' root f) eqn:Ha; [| intros []].
  apply admits_admitted, admitted_weaken, admits_admitted in Ha.
  rewrite Ha. exact (fun H => H).
Qed.

Lemma entry_rows_weaken (entry : string * list string * list file)
  (r : FileRecord) :
  In r (entry_rows skip_types' exclude_dirs' include_files' entry) ->
  In r (entry_rows skip_types exclude_dirs include_files entry).
Proof.
  destruct entry as [[root dirs] files]. unfold entry_rows.
  destruct (existsb (fun excl => str_in excl root) exclude_dirs') eqn:E';
    [intros [] |].
  assert (E : existsb (fun excl => str_in excl root) exclude_dirs = false).
  { apply exclude_test. intros excl Hin.
    apply (proj1 (exclude_test exclude_dirs' root) E').
    apply more_excluded, Hin. }
  rewrite E. intros Hin. apply in_flat_map in Hin.
  destruct Hin as [f [Hf Hr]]. apply in_flat_map. exists f.
  split; [exact Hf | apply file_rows_weaken, Hr].
Qed.

Lemma walk_rows_weaken (entries : list (string * list string * list file))
  (r : FileRecord) :
  In r (walk_rows skip_types' exclude_dirs' include_files' entries) ->
  In r (walk_rows skip_types exclude_dirs include_files entries).
Proof.
  unfold walk_rows. intros Hin. apply in_flat_map in Hin.
  destruct Hin as [e [He Hr]]. apply in_flat_map. exists e.
  split; [exact He | apply entry_rows_weaken, Hr].
Qed.

End FilterOrder.

(** X3: filters only take rows away.  Adding suffixes to [skip_types],
    adding substrings to [exclude_dirs], or replacing the include set by a
    non-empty subset of it (or an empty include set by any non-empty one)
    never makes a run insert a row that the run with the original filters
    does not insert. *)
Theorem stricter_filters_index_less :
  forall (base_dir : string) (fs : dirtree) (conn : list FileRecord)
         (skip_types skip_types' exclude_dirs exclude_dirs' : list string)
         (include_files include_files' : list string) (verbose : bool)
         (r : FileRecord),
    incl skip_types skip_types' ->
    incl exclude_dirs exclude_dirs' ->
    include_files = [] \/
    (include_files' <> [] /\ incl include_files' include_files) ->
    In r (db (fst (index_directory base_dir fs conn skip_types' exclude_dirs'
                                   include_files' verbose))) ->
    In r (db (fst (index_directory base_dir fs conn skip_types exclude_dirs
                                   include_files verbose))).
Proof.
  intros base_dir fs conn skip_types skip_types' exclude_dirs exclude_dirs'
         include_files include_files' verbose r Hs He Hi.
  destruct (index_directory_rows base_dir fs conn skip_types' exclude_dirs'
              include_files' verbose) as [-> _].
  destruct (index_directory_rows base_dir fs conn skip_types exclude_dirs
              include_files verbose) as [-> _].
  rewrite !in_app_iff. intros [H | H]; [left; exact H | right].
  apply (walk_rows_weaken skip_types skip_types' exclude_dirs exclude_dirs'
           include_files include_files' Hs He Hi _ r H).
Qed.

Lemma stricter_filters_index_less_witness :
  In (mkFileRecord "/proj/a.txt" "H1" "5B")
     (db (fst (index_directory "/proj"
                 (Dir [mkFile "a.txt" (Digest "H1") (Some 5);
                       mkFile "b.log" (Digest "H2") (Some 7)] FNil)
                 [] [] [] [] false))).
Proof.
  apply (stricter_filters_index_less "/proj"
           (Dir [mkFile "a.txt" (Digest "H1") (Some 5);
                 mkFile "b.log" (Digest "H2") (Some 7)] FNil)
           [] [] [".log"] [] ["venv"] [] ["/proj/a.txt"] false).
  - intros x [].
  - intros x [].
  - left. reflexivity.
  - simpl. left. reflexivity.
Defined.

(** ** An empty exclusion string *)

Lemma str_in_empty (s : string) : str_in "" s = true.
Proof. apply str_in_spec. exists "", s. reflexivity. Qed.

Lemma index_entries_all_excluded
  (skip_types exclude_dirs include_files : list string) (verbose : bool)
  (entries : list (string * list string * list file)) :
  In "" exclude_dirs ->
  forall st, index_entries skip_types exclude_dirs include_files verbose
                           entries st = st.
Proof.
  intros Hin. induction entries as [| [[root dirs] files] entries IH];
    intros st; [reflexivity |].
  rewrite index_entries_cons.
  rewrite (index_entry_excluded skip_types exclude_dirs include_files verbose
             "" Hin root dirs files st (str_in_empty root)).
  apply IH.
Qed.

(** X4: the empty string occurs in every path, so with [""] among the
    exclusions every directory is passed over, the root included: the run
    inserts nothing and prints nothing but the total, even when
    [verbose] is set. *)
Theorem empty_exclusion_excludes_everything :
  forall (base_dir : string) (fs : dirtree) (conn : list FileRecord)
         (skip_types exclude_dirs include_files : list string) (verbose : bool),
    In "" exclude_dirs ->
    fst (index_directory base_dir fs conn skip_types exclude_dirs
                         include_files verbose)
    = mkState conn 0 ["Total files processed: 0"].
Proof.
  intros base_dir fs conn skip_types exclude_dirs include_files verbose Hin.
  unfold index_directory. simpl fst.
  rewrite (index_entries_all_excluded skip_types exclude_dirs include_files
             verbose (os_walk base_dir fs) Hin).
  reflexivity.
Qed.

Lemma empty_exclusion_excludes_everything_witness :
  fst (index_directory "/proj"
         (Dir [mkFile "a.txt" (Digest "H1") (Some 5)] FNil)
         [] [] ["venv"; ""] [] true)
  = mkState [] 0 ["Total files processed: 0"].
Proof.
  apply (empty_exclusion_excludes_everything "/proj"
           (Dir [mkFile "a.txt" (Digest "H1") (Some 5)] FNil)
           [] [] ["venv"; ""] [] true).
  simpl. right. left. reflexivity.
Defined.

(** ** What the rows of a run look like *)

Lemma walk_rows_origin
  (skip_types exclude_dirs include_files : list string)
  (entries : list (string * list string * list file)) (r : FileRecord) :
  In r (walk_rows skip_types exclude_dirs include_files entries) ->
  exists root dirs files f h,
    In (root, dirs, files) entries /\ In f files /\
    file_read f = Digest h /\ h <> "" /\ r = row_of root f h.
Proof.
  unfold walk_rows. intros Hin. apply in_flat_map in Hin.
  destruct Hin as [[[root dirs] files] [He Hr]]. unfold entry_rows in Hr.
  destruct (existsb (fun excl => str_in excl root) exclude_dirs); [destruct Hr |].
  apply in_flat_map in Hr. destruct Hr as [f [Hf Hr]]. unfold file_rows in Hr.
  destruct (admits skip_types include_files root f); [| destruct Hr].
  destruct (file_read f) as [h | e] eqn:Hread; [| destruct Hr].
  destruct (String.eqb_spec h "") as [E | Hne]; [destruct Hr |].
  destruct Hr as [<- | []].
  exists root, dirs, files, f, h. repeat split; assumption.
Qed.

Lemma stat_bounded_file (entries : list (string * list string * list file))
  (root : string) (dirs : list string) (files : list file) (f : file) :
  stat_bounded entries = true ->
  In (root, dirs, files) entries -> In f files ->
  forall n, file_stat f = Some n -> 0 <= n < 2 ^ 102.
Proof.
  intros Hb He Hf n Hn. unfold stat_bounded in Hb.
  pose proof (proj1 (forallb_forall _ _) Hb _ He) as Hfiles. simpl in Hfiles.
  pose proof (proj1 (forallb_forall _ _) Hfiles _ Hf) as Hstat.
  cbv beta in Hstat. rewrite Hn in Hstat. apply andb_true_iff in Hstat.
  destruct Hstat as [H0 H1]. apply Z.leb_le in H0. apply Z.ltb_lt in H1. lia.
Qed.

(** X5: the table stays queryable.  If every size already stored is one
    the threshold query decodes, and every file of the tree whose size is
    known is below [2^102] bytes, then after a run every row has a
    non-empty hash or was there before, every stored size is still one the
    query decodes, and a query with any non-zero 64-bit threshold returns
    its groups. *)
Theorem index_keeps_table_queryable :
  forall (base_dir : string) (fs : dirtree) (conn : list FileRecord)
         (skip_types exclude_dirs include_files : list string) (verbose : bool)
         (min_size : Z),
    forallb size_modelled conn = true ->
    stat_bounded (os_walk base_dir fs) = true ->
    min_size <> 0 -> fits_int64 min_size = true ->
    forallb size_modelled
      (db (fst (index_directory base_dir fs conn skip_types exclude_dirs
                                include_files verbose))) = true /\
    (forall r,
        In r (db (fst (index_directory base_dir fs conn skip_types exclude_dirs
                                       include_files verbose))) ->
        In r conn \/ hash r <> "") /\
    exists groups,
      find_duplicates
        (db (fst (index_directory base_dir fs conn skip_types exclude_dirs
                                  include_files verbose)))
        (Some min_size) = Return groups.
Proof.
  intros base_dir fs conn skip_types exclude_dirs include_files verbose m
         Hconn Hstat Hm Hfit.
  destruct (index_directory_rows base_dir fs conn skip_types exclude_dirs
              include_files verbose) as [Hd _].
  rewrite Hd.
  assert (Hall : forallb size_modelled
                   (conn ++ walk_rows skip_types exclude_dirs include_files
                                      (os_walk base_dir fs)) = true).
  { rewrite forallb_app, Hconn. simpl. apply forallb_forall. intros r Hr.
    destruct (walk_rows_origin _ _ _ _ r Hr)
      as [root [dirs [files [f [h [He [Hf [_ [_ ->]]]]]]]]].
    apply size_hr_modelled.
    apply (stat_bounded_file _ root dirs files f Hstat He Hf). }
  split; [exact Hall |]. split.
  - intros r Hr. apply in_app_iff in Hr. destruct Hr as [Hr | Hr]; [left; exact Hr |].
    right. destruct (walk_rows_origin _ _ _ _ r Hr)
      as [root [dirs [files [f [h [_ [_ [_ [Hne ->]]]]]]]]]. exact Hne.
  - eexists. unfold find_duplicates.
    destruct (Z.eqb_spec m 0) as [E | _]; [contradiction |].
    rewrite Hfit, (sql_where_filter m _ Hall). reflexivity.
Qed.

Lemma index_keeps_table_queryable_witness :
  forallb size_modelled
    (db (fst (index_directory "/proj"
                (Dir [mkFile "a.txt" (Digest "H1") (Some 5000);
                      mkFile "b" (Digest "H1") None] FNil)
                [mkFileRecord "/old" "H0" "3G"] [] [] [] false))) = true.
Proof.
  refine (proj1 (index_keeps_table_queryable "/proj"
                   (Dir [mkFile "a.txt" (Digest "H1") (Some 5000);
                         mkFile "b" (Digest "H1") None] FNil)
                   [mkFileRecord "/old" "H0" "3G"] [] [] [] false 1024
                   _ _ _ _)).
  - reflexivity.
  - reflexivity.
  - discriminate.
  - reflexivity.
Defined.

(** ** Paths *)

Lemma prefix_refl (s : string) : prefix s s = true.
Proof.
  induction s as [| a s IH]; simpl; [reflexivity |].
  destruct (ascii_dec a a); [exact IH | congruence].
Qed.

Lemma os_walk_under (t : dirtree) :
  forall top base,
    relative_tree t = true -> prefix base top = true ->
    forall root dirs files,
      In (root, dirs, files) (os_walk top t) ->
      prefix base root = true /\
      forallb (fun f => negb (prefix "/" (file_name f))) files = true.
Proof.
  induction t using dirtree_forest_ind
    with (P0 := fun f =>
            forall top base,
              relative_tree_forest f = true -> prefix base top = true ->
              forall root dirs files,
                In (root, dirs, files) (walk_forest top f) ->
                prefix base root = true /\
                forallb (fun f => negb (prefix "/" (file_name f))) files = true).
  - intros top base Hrel Hbase root dirs fl Hin. simpl in Hrel.
    apply andb_true_iff in Hrel. destruct Hrel as [Hfiles Hsub].
    simpl in Hin. destruct Hin as [E | Hin].
    + injection E as <- _ <-. split; assumption.
    + apply (IHt top base Hsub Hbase root dirs fl Hin).
  - intros top base _ _ root dirs fl [].
  - intros top base _ _ root dirs fl [].
  - intros top base Hrel Hbase root dirs fl Hin. simpl in Hrel.
    apply andb_true_iff in Hrel. destruct Hrel as [Hrel Hrest].
    apply andb_true_iff in Hrel. destruct Hrel as [Hname Hd].
    apply negb_true_iff in Hname.
    simpl in Hin. apply in_app_iff in Hin. destruct Hin as [Hin | Hin].
    + refine (IHt (os_path_join top name) base Hd _ root dirs fl Hin).
      destruct (os_path_join_relative top name Hname) as [sep ->].
      apply prefix_app. exact Hbase.
    + apply (IHt0 top base Hrest Hbase root dirs fl Hin).
Qed.

(** X6: every path a run stores begins with [base_dir] exactly as it was
    given (no name of the tree being absolute, as in any directory
    listing), so a relative [base_dir] yields relative paths. *)
Theorem indexed_paths_start_with_base_dir :
  forall (base_dir : string) (fs : dirtree) (conn : list FileRecord)
         (skip_types exclude_dirs include_files : list string) (verbose : bool)
         (r : FileRecord),
    relative_tree fs = true ->
    In r (db (fst (index_directory base_dir fs conn skip_types exclude_dirs
                                   include_files verbose))) ->
    In r conn \/ prefix base_dir (path r) = true.
Proof.
  intros base_dir fs conn skip_types exclude_dirs include_files verbose r
         Hrel Hin.
  destruct (index_directory_rows base_dir fs conn skip_types exclude_dirs
              include_files verbose) as [Hd _].
  rewrite Hd in Hin. apply in_app_iff in Hin.
  destruct Hin as [Hin | Hin]; [left; exact Hin | right].
  destruct (walk_rows_origin _ _ _ _ r Hin)
    as [root [dirs [files [f [h [He [Hf [_ [_ ->]]]]]]]]].
  destruct (os_walk_under fs base_dir base_dir Hrel (prefix_refl base_dir)
              root dirs files He) as [Hroot Hfiles].
  pose proof (proj1 (forallb_forall _ _) Hfiles f Hf) as Hname.
  apply negb_true_iff in Hname.
  unfold row_of. simpl path.
  destruct (os_path_join_relative root (file_name f) Hname) as [sep ->].
  apply prefix_app. exact Hroot.
Qed.

Lemma indexed_paths_start_with_base_dir_witness :
  In (mkFileRecord "proj/src/z" "H1" "7B") [] \/
  prefix "proj" (path (mkFileRecord "proj/src/z" "H1" "7B")) = true.
Proof.
  apply (indexed_paths_start_with_base_dir "proj"
           (Dir [] (FCons "src" (Dir [mkFile "z" (Digest "H1") (Some 7)] FNil)
                          FNil))
           [] [] [] [] false).
  - reflexivity.
  - simpl. left. reflexivity.
Defined.

(** ** Thresholds *)

Lemma sql_unit_pos (s : string) : 0 < sql_unit s.
Proof.
  unfold sql_unit. destruct (split_last s) as [[body c] |]; [| reflexivity].
  destruct c as [[|] [|] [|] [|] [|] [|] [|] [|]]; reflexivity.
Qed.

Lemma digits_value_nonneg (s : string) (v : Z) :
  digits_value s = Some v -> 0 <= v.
Proof.
  unfold digits_value. destruct (NilZero.uint_of_string s); [| discriminate].
  intros H. injection H as <-. apply N2Z.is_nonneg.
Qed.

Lemma sql_size_bytes_nonneg (s : string) (v : Z) :
  sql_size_bytes s = Return v -> 0 <= v.
Proof.
  unfold sql_size_bytes, sql_cast_float.
  destruct (negb (string_forall is_sql_text s)); [discriminate |].
  pose proof (sql_unit_pos s) as Hu.
  destruct (sql_strip_unit s =? "")%string.
  { simpl. intros H. injection H as <-. lia. }
  destruct (digits_value (sql_strip_unit s)) as [d |] eqn:Hd; [| discriminate].
  apply digits_value_nonneg in Hd.
  destruct (d <? 2 ^ 53); [| discriminate].
  simpl. intros H. injection H as <-. nia.
Qed.

(** The rows a query with threshold [m] groups: all of them when [m] is
    [0], otherwise those that decode to [m] or more. *)
Lemma find_duplicates_kept (conn : list FileRecord) (m : Z) :
  forallb size_modelled conn = true -> fits_int64 m = true ->
  find_duplicates conn (Some m)
  = Return (select_duplicates
              (filter (fun r => (m =? 0) || size_at_least m r) conn)).
Proof.
  intros Hmod Hfit. unfold find_duplicates.
  destruct (Z.eqb_spec m 0) as [-> | Hm].
  - simpl. f_equal. f_equal. symmetry.
    clear. induction conn as [| r conn IH]; simpl; congruence.
  - rewrite Hfit, (sql_where_filter m conn Hmod). reflexivity.
Qed.

Lemma filter_length_le (p p' : FileRecord -> bool) (l : list FileRecord) :
  (forall r, In r l -> p' r = true -> p r = true) ->
  (List.length (filter p' l) <= List.length (filter p l))%nat.
Proof.
  induction l as [| r l IH]; simpl; intros H; [lia |].
  assert (IH' := IH (fun x Hx => H x (or_intror Hx))).
  destruct (p' r) eqn:E'.
  - rewrite (H r (or_introl eq_refl) E'). simpl. lia.
  - destruct (p r); simpl; lia.
Qed.

Lemma threshold_pass_mono (m m' : Z) (r : FileRecord) :
  size_modelled r = true -> m <= m' ->
  (m' =? 0) || size_at_least m' r = true ->
  (m =? 0) || size_at_least m r = true.
Proof.
  unfold size_modelled, size_at_least. intros Hmod Hle H.
  destruct (sql_size_bytes (size r)) as [v | e |] eqn:Hv; try discriminate.
  apply sql_size_bytes_nonneg in Hv.
  apply orb_true_iff in H. apply orb_true_iff.
  destruct (Z.eqb_spec m 0) as [E | Hne]; [left; reflexivity | right].
  apply Z.leb_le. destruct H as [H | H].
  - apply Z.eqb_eq in H. lia.
  - apply Z.leb_le in H. lia.
Qed.

(** X7: raising the threshold never brings a hash into the report.  Over a
    table whose sizes the query decodes, every hash reported for [min_size']
    is also reported for any smaller threshold [min_size], the value [0]
    (no filter) included. *)
Theorem higher_threshold_reports_fewer :
  forall (conn : list FileRecord) (min_size min_size' : Z),
    forallb size_modelled conn = true ->
    fits_int64 min_size = true -> fits_int64 min_size' = true ->
    min_size <= min_size' ->
    exists groups groups',
      find_duplicates conn (Some min_size) = Return groups /\
      find_duplicates conn (Some min_size') = Return groups' /\
      forall h paths', In (h, paths') groups' -> exists paths, In (h, paths) groups.
Proof.
  intros conn m m' Hmod Hfit Hfit' Hle.
  rewrite (find_duplicates_kept conn m Hmod Hfit),
          (find_duplicates_kept conn m' Hmod Hfit').
  do 2 eexists. split; [reflexivity |]. split; [reflexivity |].
  intros h paths' Hin. apply select_duplicates_spec in Hin.
  destruct Hin as [Hlen _]. eexists. apply select_duplicates_spec.
  split; [| reflexivity].
  rewrite rows_with_filter in *.
  eapply Nat.le_trans; [exact Hlen |].
  apply filter_length_le. intros r Hr.
  apply threshold_pass_mono; [| exact Hle].
  apply rows_with_hash in Hr. destruct Hr as [Hr _].
  apply (proj1 (forallb_forall _ _) Hmod r Hr).
Qed.

Lemma higher_threshold_reports_fewer_witness :
  exists groups groups',
    find_duplicates [mkFileRecord "/a" "H" "20M"; mkFileRecord "/b" "H" "12M";
                     mkFileRecord "/c" "G" "5M"; mkFileRecord "/d" "G" "5M"]
                    (Some 1024) = Return groups /\
    find_duplicates [mkFileRecord "/a" "H" "20M"; mkFileRecord "/b" "H" "12M";
                     mkFileRecord "/c" "G" "5M"; mkFileRecord "/d" "G" "5M"]
                    (Some (10 * 1024 * 1024)) = Return groups' /\
    forall h paths', In (h, paths') groups' -> exists paths, In (h, paths) groups.
Proof.
  apply (higher_threshold_reports_fewer
           [mkFileRecord "/a" "H" "20M"; mkFileRecord "/b" "H" "12M";
            mkFileRecord "/c" "G" "5M"; mkFileRecord "/d" "G" "5M"]
           1024 (10 * 1024 * 1024)).
  - reflexivity.
  - reflexivity.
  - reflexivity.
  - lia.
Defined.

(** X8: a negative threshold is truthy, so the filtered query runs, but no
    stored size decodes below zero: over a table whose sizes the query
    decodes the result is the unfiltered one. *)
Theorem negative_threshold_filters_nothing :
  forall (conn : list FileRecord) (min_size : Z),
    forallb size_modelled conn = true ->
    fits_int64 min_size = true ->
    min_size < 0 ->
    find_duplicates conn (Some min_size) = find_duplicates conn None.
Proof.
  intros conn m Hmod Hfit Hneg.
  rewrite (find_duplicates_kept conn m Hmod Hfit).
  change (find_duplicates conn None) with (Return (select_duplicates conn)).
  f_equal. f_equal.
  induction conn as [| r conn IH]; [reflexivity |].
  simpl in Hmod. apply andb_true_iff in Hmod. destruct Hmod as [Hr Hconn].
  simpl. rewrite (threshold_pass_mono m 0 r Hr ltac:(lia) eq_refl).
  f_equal. apply IH. exact Hconn.
Qed.

Lemma negative_threshold_filters_nothing_witness :
  find_duplicates [mkFileRecord "/a" "H" "0B"; mkFileRecord "/b" "H" "12M"]
                  (Some (-1))
  = find_duplicates [mkFileRecord "/a" "H" "0B"; mkFileRecord "/b" "H" "12M"]
                    None.
Proof.
  apply (negative_threshold_filters_nothing
           [mkFileRecord "/a" "H" "0B"; mkFileRecord "/b" "H" "12M"] (-1)).
  - reflexivity.
  - reflexivity.
  - lia.
Defined.

(** ** An empty report *)

Lemma distinct_hashes_rows (conn : list FileRecord) :
  NoDup (map hash conn) <->
  forall h, (List.length (rows_with h conn) <= 1)%nat.
Proof.
  induction conn as [| r conn IH]; simpl.
  - split; [intros _ h; simpl; lia | intros _; constructor].
  - split.
    + intros Hnd h. apply NoDup_cons_iff in Hnd. destruct Hnd as [Hfresh Hnd].
      pose proof (proj1 IH Hnd h) as Hh. unfold rows_with in *. simpl.
      destruct (String.eqb_spec (hash r) h) as [E | _]; [| exact Hh].
      simpl. destruct (filter _ conn) as [| x l] eqn:Ef; [simpl; lia |].
      exfalso. apply Hfresh.
      assert (Hx : In x (filter (fun r0 => (hash r0 =? h)%string) conn))
        by (rewrite Ef; left; reflexivity).
      apply filter_In in Hx. destruct Hx as [Hx Hhx].
      apply String.eqb_eq in Hhx. rewrite E, <- Hhx. apply in_map. exact Hx.
    + intros Hall. apply NoDup_cons.
      * intros Hin. apply in_map_iff in Hin. destruct Hin as [x [Hx Hin]].
        pose proof (Hall (hash r)) as Hh. unfold rows_with in Hh. simpl in Hh.
        rewrite String.eqb_refl in Hh. simpl in Hh.
        pose proof (rows_with_member (hash r) conn x Hin Hx) as Hm.
        unfold rows_with in Hm. lia.
      * apply IH. intros h. pose proof (Hall h) as Hh.
        unfold rows_with in *. simpl in Hh.
        destruct (hash r =? h)%string; simpl in Hh; lia.
Qed.

Lemma select_duplicates_empty (conn : list FileRecord) :
  select_duplicates conn = [] <-> NoDup (map hash conn).
Proof.
  rewrite distinct_hashes_rows. split.
  - intros E h.
    destruct (Nat.le_gt_cases (List.length (rows_with h conn)) 1) as [H | H];
      [exact H |].
    assert (Hin : In (h, concat newline (map path (rows_with h conn)))
                     (select_duplicates conn))
      by (apply select_duplicates_spec; split; [lia | reflexivity]).
    rewrite E in Hin. destruct Hin.
  - intros Hall. destruct (select_duplicates conn) as [| [h p] l] eqn:E;
      [reflexivity |].
    assert (Hin : In (h, p) (select_duplicates conn))
      by (rewrite E; left; reflexivity).
    apply select_duplicates_spec in Hin. destruct Hin as [Hlen _].
    specialize (Hall h). lia.
Qed.

(** X9: the unfiltered report is empty exactly when no two rows of the
    table share a hash, and this is exactly when [main] prints
    ["No duplicates found."] and nothing else; otherwise it prints one
    block per reported hash. *)
Theorem report_empty_iff_hashes_distinct :
  forall conn : list FileRecord,
    (find_duplicates conn None = Return [] <-> NoDup (map hash conn)) /\
    (main_report conn None = Return ["No duplicates found."] <->
     NoDup (map hash conn)) /\
    exists groups lines,
      find_duplicates conn None = Return groups /\
      main_report conn None = Return lines /\
      (groups <> [] -> List.length lines = List.length groups).
Proof.
  intros conn.
  change (find_duplicates conn None) with (Return (select_duplicates conn)).
  unfold main_report, main_find_dupes. simpl bind.
  change (find_duplicates conn None) with (Return (select_duplicates conn)).
  simpl bind.
  split; [| split].
  - rewrite <- select_duplicates_empty. split; [intros H; injection H; auto |].
    intros ->. reflexivity.
  - rewrite <- select_duplicates_empty. split.
    + destruct (select_duplicates conn) as [| g l]; [reflexivity |].
      simpl. intros H. injection H as H _. discriminate H.
    + intros ->. reflexivity.
  - do 2 eexists. split; [reflexivity |]. split; [reflexivity |].
    intros Hne. destruct (select_duplicates conn) as [| g l]; [contradiction |].
    simpl. rewrite length_map. reflexivity.
Qed.

(** ** The encoder at its limits *)

Lemma round53_at_least (n k : Z) :
  53 <= k -> 2 ^ k <= n -> 2 ^ k <= round53 n.
Proof.
  intros Hk Hn.
  assert (H53 : 2 ^ 53 <= 2 ^ k) by (apply Z.pow_le_mono_r; lia).
  assert (Hpos : 0 < n) by lia.
  assert (Hlog : k <= Z.log2 n) by (apply Z.log2_le_pow2; lia).
  destruct (Z.log2_spec n Hpos) as [Hlo Hhi].
  unfold round53.
  destruct (Z.leb_spec (Z.log2 n - 52) 0) as [Hs | Hs]; [lia |].
  set (s := Z.log2 n - 52) in *.
  assert (Hd : 0 < 2 ^ s) by (apply Z.pow_pos_nonneg; lia).
  assert (E1 : 2 ^ Z.log2 n = 2 ^ 52 * 2 ^ s)
    by (rewrite <- Z.pow_add_r by lia; f_equal; lia).
  assert (E2 : 2 ^ Z.succ (Z.log2 n) = 2 ^ 53 * 2 ^ s)
    by (rewrite <- Z.pow_add_r by lia; f_equal; lia).
  destruct (Z.le_gt_cases s k) as [Hsk | Hsk].
  - assert (E3 : 2 ^ k = 2 ^ (k - s) * 2 ^ s)
      by (rewrite <- Z.pow_add_r by lia; f_equal; lia).
    pose proof (round_half_even_range n (2 ^ s) (2 ^ (k - s)) (2 ^ 53) Hd
                  ltac:(lia)) as R.
    rewrite E3. apply Z.mul_le_mono_nonneg_r; lia.
  - pose proof (round_half_even_range n (2 ^ s) (2 ^ 52) (2 ^ 53) Hd
                  ltac:(lia)) as R.
    assert (2 ^ k <= 2 ^ s) by (apply Z.pow_le_mono_r; lia).
    nia.
Qed.

Lemma human_readable_loop_returns (n : Z) :
  1024 <= n ->
  exists s, human_readable_loop ["K"; "M"; "G"; "T"] (PyFloat (round53 n) (-10))
            = Return s.
Proof.
  intros Hn. rewrite human_readable_float_of by exact Hn. eexists. reflexivity.
Qed.

(** X10: the encoder fails in one way only.  For a count [n >= 0] it
    raises [OverflowError] exactly when [n], rounded to binary64, is
    [2^1034] or more (the first division by 1024 leaves the float range),
    which is so for every [n >= 2^1034]; otherwise it returns a text.  The
    indexer stores ["0B"] for a file whose size makes the encoder raise. *)
Theorem encoder_fails_only_by_overflow :
  forall n : Z,
    0 <= n ->
    (human_readable_size n = Raise OverflowError <-> 2 ^ 1034 <= round53 n) /\
    (round53 n < 2 ^ 1034 -> exists s, human_readable_size n = Return s) /\
    (2 ^ 1034 <= n -> human_readable_size n = Raise OverflowError) /\
    (2 ^ 1034 <= n ->
     forall f, file_stat f = Some n -> size_hr_of f = "0B").
Proof.
  intros n Hn.
  assert (Hiff : human_readable_size n = Raise OverflowError <->
                 2 ^ 1034 <= round53 n).
  { destruct (Z.lt_ge_cases n 1024) as [Hs | Hl].
    - rewrite human_readable_size_small by lia.
      rewrite round53_small
        by (assert (2 ^ 10 < 2 ^ 53) by (apply Z.pow_lt_mono_r; lia); lia).
      assert (2 ^ 10 < 2 ^ 1034) by (apply Z.pow_lt_mono_r; lia).
      split; [discriminate | lia].
    - rewrite human_readable_size_large by exact Hl.
      destruct (Z.leb_spec (2 ^ 1034) (round53 n)) as [Ho | Ho].
      + split; [intros _; exact Ho | reflexivity].
      + destruct (human_readable_loop_returns n Hl) as [s ->].
        split; [discriminate | lia]. }
  assert (Hbig : 2 ^ 1034 <= n -> human_readable_size n = Raise OverflowError)
    by (intros H; apply Hiff, round53_at_least; [lia | exact H]).
  split; [exact Hiff |]. split; [| split; [exact Hbig |]].
  - intros Hr. destruct (Z.lt_ge_cases n 1024) as [Hs | Hl].
    + rewrite human_readable_size_small by lia. eexists. reflexivity.
    + rewrite human_readable_size_large by exact Hl.
      destruct (Z.leb_spec (2 ^ 1034) (round53 n)) as [Ho | Ho]; [lia |].
      apply human_readable_loop_returns. exact Hl.
  - intros H f Hf. unfold size_hr_of. rewrite Hf, (Hbig H). reflexivity.
Qed.

Lemma encoder_fails_only_by_overflow_witness :
  exists s, human_readable_size (2 ^ 70) = Return s.
Proof.
  apply (proj1 (proj2 (encoder_fails_only_by_overflow (2 ^ 70) ltac:(lia)))).
  vm_compute. reflexivity.
Defined.

(** ** Exact sizes *)

Lemma round_half_even_exact (q d : Z) :
  0 < d -> round_half_even (q * d) d = q.
Proof.
  intros Hd. unfold round_half_even.
  rewrite Z.mod_mul, Z.div_mul by lia.
  destruct (Z.ltb_spec (2 * 0) d); [reflexivity | lia].
Qed.

Lemma round53_exact (q j : Z) :
  0 <= q < 2 ^ 53 -> 0 <= j -> round53 (q * 2 ^ j) = q * 2 ^ j.
Proof.
  intros Hq Hj.
  assert (Hp : 0 < 2 ^ j) by (apply Z.pow_pos_nonneg; lia).
  destruct (Z.eq_dec q 0) as [-> | Hq0]; [reflexivity |].
  unfold round53.
  destruct (Z.leb_spec (Z.log2 (q * 2 ^ j) - 52) 0) as [_ | Hs]; [reflexivity |].
  set (n := q * 2 ^ j) in *. set (s := Z.log2 n - 52) in *.
  assert (Hn : 0 < n) by (unfold n; nia).
  assert (Hlog : Z.log2 n < 53 + j).
  { apply Z.log2_lt_pow2; [exact Hn |].
    rewrite Z.pow_add_r by lia. unfold n. nia. }
  assert (Hd : 0 < 2 ^ s) by (apply Z.pow_pos_nonneg; lia).
  assert (E : n = (q * 2 ^ (j - s)) * 2 ^ s).
  { unfold n. rewrite <- Z.mul_assoc, <- Z.pow_add_r by lia.
    do 2 f_equal. lia. }
  rewrite E at 1. rewrite round_half_even_exact by exact Hd. symmetry. exact E.
Qed.

(** X11: the round trip is exact on the sizes the encoding can express.
    For a table unit [u] and [1 <= q < 1024] the count [q * u] is encoded as
    the digits of [q] followed by the letter of [u], and that text decodes
    back to [q * u]. *)
Theorem exact_sizes_round_trip :
  forall (q : Z) (c : ascii) (u : Z),
    units c = Some u ->
    1 <= q < 1024 ->
    human_readable_size (q * u) = Return (str_int q ++ String c "") /\
    size_to_bytes (str_int q ++ String c "") = Return (q * u).
Proof.
  intros q c u Hu Hq.
  assert (H53 : 2 ^ 10 < 2 ^ 53) by (apply Z.pow_lt_mono_r; lia).
  split.
  - assert (Hr : 2 ^ 60 < 2 ^ 1024) by (apply Z.pow_lt_mono_r; lia).
    destruct c as [[|] [|] [|] [|] [|] [|] [|] [|]]; simpl in Hu;
      try discriminate; injection Hu as <-;
      match goal with
      | |- human_readable_size ?n = _ =>
          rewrite (human_readable_size_eval n) by lia;
          destruct (spec_scale_cases n)
            as [[H E] | [[H E] | [[H E] | [[H E] | [[H E] | [H E]]]]]];
          rewrite E; try lia
      end;
      match goal with
      | |- context [round53 (q * ?d)] =>
          replace (round53 (q * d)) with (q * d)
            by (symmetry;
                first [ apply round53_small; lia
                      | apply (round53_exact q 50); lia ])
      end;
      try (rewrite round_half_even_exact by reflexivity; reflexivity).
    all: change (1024 ^ 0) with 1; rewrite round_half_even_one;
      rewrite Z.mul_1_r; reflexivity.
  - apply size_to_bytes_encoded; [lia |].
    destruct (unit_letter_cases c u Hu) as [_ [_ [-> _]]]. exact Hu.
Qed.

Lemma exact_sizes_round_trip_witness :
  human_readable_size (12 * 1024 ^ 2) = Return "12M" /\
  size_to_bytes "12M" = Return (12 * 1024 ^ 2).
Proof.
  apply (exact_sizes_round_trip 12 "M"%char (1024 ^ 2)).
  - reflexivity.
  - lia.
Defined.

(** ** Order of sizes *)

Lemma round_half_even_mono (m m' d : Z) :
  0 < d -> m <= m' -> round_half_even m d <= round_half_even m' d.
Proof.
  intros Hd Hle. unfold round_half_even.
  pose proof (Z.div_mod m d ltac:(lia)) as E.
  pose proof (Z.div_mod m' d ltac:(lia)) as E'.
  pose proof (Z.mod_pos_bound m d Hd) as B.
  pose proof (Z.mod_pos_bound m' d Hd) as B'.
  pose proof (Z.div_le_mono m m' d Hd Hle) as Hq.
  destruct (Z.eq_dec (m / d) (m' / d)) as [Eq | Ne].
  - rewrite <- Eq in *.
    destruct (Z.ltb_spec (2 * (m mod d)) d), (Z.ltb_spec (2 * (m' mod d)) d),
             (Z.ltb_spec d (2 * (m mod d))), (Z.ltb_spec d (2 * (m' mod d)));
      destruct (Z.even (m / d)); lia.
  - destruct (Z.ltb_spec (2 * (m mod d)) d), (Z.ltb_spec (2 * (m' mod d)) d),
             (Z.ltb_spec d (2 * (m mod d))), (Z.ltb_spec d (2 * (m' mod d)));
      destruct (Z.even (m / d)), (Z.even (m' / d)); lia.
Qed.

(** The count that the encoding of [n] decodes to. *)
Lemma roundtrip_value (n : Z) :
  0 <= n < 2 ^ 102 ->
  exists s,
    human_readable_size n = Return s /\
    size_to_bytes s
    = Return (round_half_even (round53 n) (granularity n) * granularity n) /\
    sql_size_bytes s
    = Return (round_half_even (round53 n) (granularity n) * granularity n).
Proof.
  intros Hn.
  destruct (human_readable_size_shape n Hn) as [c [Hu [Hs Hq]]].
  eexists. split; [exact Hs |]. split.
  - apply size_to_bytes_encoded; [lia |].
    destruct (unit_letter_cases c _ Hu) as [_ [_ [-> _]]]. exact Hu.
  - apply sql_size_bytes_encoded; [lia | exact Hu].
Qed.

(** The decoded counts of two exactly held sizes are in the order of the
    sizes. *)
Lemma roundtrip_value_mono (n n' : Z) :
  0 <= n -> n <= n' -> n' < 2 ^ 53 ->
  round_half_even (round53 n) (granularity n) * granularity n
  <= round_half_even (round53 n') (granularity n') * granularity n'.
Proof.
  intros H0 Hle H53.
  rewrite !round53_small by lia.
  pose proof (round_half_even_mono n n' 1 ltac:(lia) Hle) as M0.
  pose proof (round_half_even_mono n n' (1024 ^ 1) ltac:(lia) Hle) as M1.
  pose proof (round_half_even_mono n n' (1024 ^ 2) ltac:(lia) Hle) as M2.
  pose proof (round_half_even_mono n n' (1024 ^ 3) ltac:(lia) Hle) as M3.
  pose proof (round_half_even_mono n n' (1024 ^ 4) ltac:(lia) Hle) as M4.
  pose proof (round_half_even_mono n n' (1024 ^ 5) ltac:(lia) Hle) as M5.
  unfold granularity.
  destruct (spec_scale_cases n)
    as [[H E] | [[H E] | [[H E] | [[H E] | [[H E] | [H E]]]]]]; rewrite E;
    destruct (spec_scale_cases n')
      as [[H' E'] | [[H' E'] | [[H' E'] | [[H' E'] | [[H' E'] | [H' E']]]]]];
    rewrite E'; simpl fst; try lia;
    change (1024 ^ 0) with 1 in *;
    match goal with
    | |- round_half_even n ?d * ?d <= round_half_even n' ?d' * ?d' =>
        try (assert (R : 0 <= round_half_even n d <= 1024)
              by (apply round_half_even_range; [reflexivity | lia]));
        try (assert (R' : 1 <= round_half_even n' d' <= 2 ^ 53)
              by (apply round_half_even_range; [reflexivity | lia]))
    end; lia.
Qed.

(** X12: the encoding keeps sizes in order.  For byte counts
    [n <= n'] that binary64 holds exactly (below [2^53]), the count
    decoded from the encoding of [n] is at most the one decoded from the
    encoding of [n']. *)
Theorem encoding_preserves_order :
  forall n n' : Z,
    0 <= n -> n <= n' -> n' < 2 ^ 53 ->
    exists s s' v v',
      human_readable_size n = Return s /\
      human_readable_size n' = Return s' /\
      size_to_bytes s = Return v /\
      size_to_bytes s' = Return v' /\
      v <= v'.
Proof.
  intros n n' H0 Hle H53.
  assert (Hp : 2 ^ 53 < 2 ^ 102) by (apply Z.pow_lt_mono_r; lia).
  destruct (roundtrip_value n ltac:(lia)) as [s [Hs [Hv _]]].
  destruct (roundtrip_value n' ltac:(lia)) as [s' [Hs' [Hv' _]]].
  exists s, s'. do 2 eexists.
  split; [exact Hs |]. split; [exact Hs' |].
  split; [exact Hv |]. split; [exact Hv' |].
  apply roundtrip_value_mono; assumption.
Qed.

Lemma encoding_preserves_order_witness :
  exists s s' v v',
    human_readable_size 1536 = Return s /\
    human_readable_size 1048575 = Return s' /\
    size_to_bytes s = Return v /\
    size_to_bytes s' = Return v' /\
    v <= v'.
Proof.
  apply (encoding_preserves_order 1536 1048575); lia.
Defined.

(** ** The two decoders *)

Lemma string_app_empty (s : string) : s ++ "" = s.
Proof.
  induction s as [| a s IH]; simpl; [reflexivity |]. rewrite IH. reflexivity.
Qed.

Lemma sql_size_bytes_suffix (q : Z) (c : ascii) :
  0 <= q < 2 ^ 53 -> is_digit c = false -> is_sql_text c = true ->
  sql_size_bytes (str_int q ++ String c "")
  = Return (q * sql_unit (String c "")).
Proof.
  intros Hq Hd Ha.
  assert (Hdig := str_int_digits q (proj1 Hq)).
  unfold sql_size_bytes.
  rewrite string_forall_app, (digits_sql_text _ Hdig). simpl string_forall.
  rewrite Ha. simpl negb.
  unfold sql_strip_unit, sql_unit. rewrite split_last_app, remove_char_app.
  rewrite (remove_char_digits c _ Hd Hdig). simpl remove_char.
  rewrite Ascii.eqb_refl, string_app_empty.
  unfold sql_cast_float.
  destruct (String.eqb_spec (str_int q) "") as [E | _];
    [exfalso; exact (str_int_nonempty q (proj1 Hq) E) |].
  rewrite (digits_value_str_int q (proj1 Hq)).
  destruct (Z.ltb_spec q (2 ^ 53)); [reflexivity | lia].
Qed.

Lemma lower_unit_letter (c : ascii) (u : Z) :
  units (upper_char c) = Some u -> units c = None ->
  is_digit c = false /\ is_sql_text c = true /\ sql_unit (String c "") = 1.
Proof.
  destruct c as [[|] [|] [|] [|] [|] [|] [|] [|]]; simpl; intros H H';
    try discriminate; repeat split.
Qed.

(** X13: the query and [size_to_bytes] decode alike every size written
    with an upper-case unit letter, so everything the encoder writes; they
    part on lower-case letters, which [size_to_bytes] upper-cases and the
    query's [CASE] does not know: there the query takes the digits as
    bytes. *)
Theorem decoders_agree_on_upper_case :
  forall (q : Z) (c : ascii) (u : Z),
    0 <= q < 2 ^ 53 ->
    units (upper_char c) = Some u ->
    size_to_bytes (str_int q ++ String c "") = Return (q * u) /\
    (units c = Some u ->
     sql_size_bytes (str_int q ++ String c "") = Return (q * u)) /\
    (units c = None ->
     sql_size_bytes (str_int q ++ String c "") = Return q).
Proof.
  intros q c u Hq Hu.
  split; [apply size_to_bytes_encoded; assumption |]. split.
  - intros Hc. apply sql_size_bytes_encoded; assumption.
  - intros Hc. destruct (lower_unit_letter c u Hu Hc) as [Hd [Ha Hone]].
    rewrite (sql_size_bytes_suffix q c Hq Hd Ha), Hone, Z.mul_1_r.
    reflexivity.
Qed.

Lemma decoders_agree_on_upper_case_witness :
  size_to_bytes "5k" = Return (5 * 1024) /\
  sql_size_bytes "5k" = Return 5.
Proof.
  destruct (decoders_agree_on_upper_case 5 "k"%char 1024 ltac:(lia) eq_refl)
    as [Hpy [_ Hsql]].
  split; [exact Hpy | exact (Hsql eq_refl)].
Defined.

(** ** The threshold of the report *)

(** X14: the report decodes its threshold before it queries.  For digits
    and a unit letter of either case the query runs with their product;
    a product of [2^63] or more cannot be bound to the statement and the
    report fails with [OverflowError], whatever the table holds, instead
    of reporting nothing. *)
Theorem report_threshold_is_decoded :
  forall (conn : list FileRecord) (q : Z) (c : ascii) (u : Z),
    0 <= q < 2 ^ 53 ->
    units (upper_char c) = Some u ->
    main_find_dupes conn (Some (str_int q ++ String c ""))
    = find_duplicates conn (Some (q * u)) /\
    (2 ^ 63 <= q * u ->
     main_report conn (Some (str_int q ++ String c "")) = Raise OverflowError).
Proof.
  intros conn q c u Hq Hu.
  assert (Hne : (str_int q ++ String c "" =? "")%string = false).
  { destruct (str_int q) as [| a s] eqn:E; [| reflexivity].
    exfalso. exact (str_int_nonempty q (proj1 Hq) E). }
  assert (Hmain : main_find_dupes conn (Some (str_int q ++ String c ""))
                  = find_duplicates conn (Some (q * u))).
  { unfold main_find_dupes. rewrite Hne.
    rewrite (size_to_bytes_encoded q c u Hq Hu). reflexivity. }
  split; [exact Hmain |].
  intros Hbig. unfold main_report. rewrite Hmain. unfold find_duplicates.
  destruct (Z.eqb_spec (q * u) 0) as [E | _]; [lia |].
  unfold fits_int64.
  destruct (Z.ltb_spec (q * u) (2 ^ 63)) as [Hlt | _]; [lia |].
  rewrite andb_false_r. reflexivity.
Qed.

Lemma report_threshold_is_decoded_witness :
  main_report [mkFileRecord "/a" "H" "5M"; mkFileRecord "/b" "H" "5M"]
              (Some "8192P")
  = Raise OverflowError.
Proof.
  refine (proj2 (report_threshold_is_decoded
                   [mkFileRecord "/a" "H" "5M"; mkFileRecord "/b" "H" "5M"]
                   8192 "P"%char (1024 ^ 5) _ _) _).
  - lia.
  - reflexivity.
  - vm_compute. discriminate.
Defined.

(** X15: a threshold that cannot be decoded stops the report.  A unit
    letter with no digits makes [size_to_bytes] raise [ValueError], which
    [main] does not catch, so nothing is reported whatever the table
    holds; an empty threshold is falsy and the report is the unfiltered
    one; [size_to_bytes] itself raises [IndexError] on the empty string. *)
Theorem undecodable_threshold_stops_report :
  forall (conn : list FileRecord) (c : ascii) (u : Z),
    units (upper_char c) = Some u ->
    size_to_bytes (String c "") = Raise ValueError /\
    main_report conn (Some (String c "")) = Raise ValueError /\
    main_report conn (Some "") = main_report conn None /\
    size_to_bytes "" = Raise IndexError.
Proof.
  intros conn c u Hu.
  assert (Hs : size_to_bytes (String c "") = Raise ValueError).
  { destruct (unit_letter_any_case c u Hu) as [Ha _].
    unfold size_to_bytes. simpl string_forall. rewrite Ha. simpl.
    rewrite Hu. reflexivity. }
  split; [exact Hs |]. split; [| split; reflexivity].
  unfold main_report, main_find_dupes. simpl String.eqb. rewrite Hs. reflexivity.
Qed.

Lemma undecodable_threshold_stops_report_witness :
  main_report [mkFileRecord "/a" "H" "5M"; mkFileRecord "/b" "H" "5M"]
              (Some "m")
  = Raise ValueError.
Proof.
  apply (proj1 (proj2 (undecodable_threshold_stops_report
                         [mkFileRecord "/a" "H" "5M"; mkFileRecord "/b" "H" "5M"]
                         "m"%char (1024 ^ 2) eq_refl))).
Defined.

(** ** Default configuration files *)

Section Bootstrap.

Variable config_dir : string.

Lemma create_default_file_keeps (st : list (string * string) * list string)
  (entry : string * list string) (name text : string) :
  read_file name (fst st) = Some text ->
  read_file name (fst (create_default_file config_dir st entry)) = Some text.
Proof.
  destruct st as [files out], entry as [filename content]. simpl.
  intros H. destruct (read_file filename files) eqn:E; simpl; [exact H |].
  destruct (String.eqb_spec filename name) as [-> | _]; [congruence | exact H].
Qed.

Lemma create_default_file_other (st : list (string * string) * list string)
  (entry : string * list string) (name : string) :
  fst entry <> name ->
  read_file name (fst (create_default_file config_dir st entry))
  = read_file name (fst st).
Proof.
  destruct st as [files out], entry as [filename content]. simpl.
  intros Hne. destruct (read_file filename files); simpl; [reflexivity |].
  destruct (String.eqb_spec filename name); [contradiction | reflexivity].
Qed.

Lemma create_default_file_makes (st : list (string * string) * list string)
  (filename : string) (content : list string) :
  read_file filename (fst st) = None ->
  read_file filename
            (fst (create_default_file config_dir st (filename, content)))
  = Some (json_dump_list content).
Proof.
  destruct st as [files out]. simpl. intros H. rewrite H. simpl.
  rewrite String.eqb_refl. reflexivity.
Qed.

Lemma create_defaults_keep (ds : list (string * list string))
  (name text : string) :
  forall st,
    read_file name (fst st) = Some text ->
    read_file name (fst (fold_left (create_default_file config_dir) ds st))
    = Some text.
Proof.
  induction ds as [| d ds IH]; intros st H; simpl; [exact H |].
  apply IH, create_default_file_keeps, H.
Qed.

Lemma create_defaults_other (ds : list (string * list string)) (name : string) :
  ~ In name (map fst ds) ->
  forall st,
    read_file name (fst (fold_left (create_default_file config_dir) ds st))
    = read_file name (fst st).
Proof.
  induction ds as [| d ds IH]; intros Hnot st; simpl; [reflexivity |].
  rewrite IH by (intros H; apply Hnot; right; exact H).
  apply create_default_file_other. intros E. apply Hnot. left. exact E.
Qed.

Lemma create_defaults_present (ds : list (string * list string)) :
  forall st,
    (forall d, In d ds -> exists text, read_file (fst d) (fst st) = Some text) ->
    fold_left (create_default_file config_dir) ds st = st.
Proof.
  induction ds as [| [filename content] ds IH]; intros st H; simpl;
    [reflexivity |].
  destruct (H (filename, content) (or_introl eq_refl)) as [text Ht].
  assert (E : create_default_file config_dir st (filename, content) = st).
  { destruct st as [files out]. simpl in *. rewrite Ht. reflexivity. }
  rewrite E. apply IH. intros d Hd. apply H. right. exact Hd.
Qed.

Lemma create_defaults_made (ds : list (string * list string)) :
  NoDup (map fst ds) ->
  forall st filename content,
    In (filename, content) ds ->
    read_file filename (fst st) = None ->
    read_file filename (fst (fold_left (create_default_file config_dir) ds st))
    = Some (json_dump_list content).
Proof.
  induction ds as [| d ds IH]; intros Hnd st filename content Hin Hnone;
    [destruct Hin |].
  simpl in Hnd. apply NoDup_cons_iff in Hnd. destruct Hnd as [Hfresh Hnd].
  simpl. destruct Hin as [-> | Hin].
  - apply create_defaults_keep. apply create_default_file_makes. exact Hnone.
  - apply (IH Hnd _ filename content Hin).
    rewrite create_default_file_other; [exact Hnone |].
    intros E. apply Hfresh. rewrite E.
    apply (in_map fst ds (filename, content) Hin).
Qed.

End Bootstrap.

Lemma defaults_distinct : NoDup (map fst defaults).
Proof.
  simpl. repeat constructor; simpl; intuition discriminate.
Qed.

(** X16: [create_default_config] is safe to run again.  It never changes a
    file that exists; each of the three default files that is missing is
    written with its default list as indented JSON; files with other names
    are left alone; and a second call creates nothing and prints
    nothing. *)
Theorem create_default_config_is_idempotent :
  forall (config_dir : string) (files : list (string * string)),
    (forall name text,
        read_file name files = Some text ->
        read_file name (fst (create_default_config config_dir files))
        = Some text) /\
    (forall name content,
        In (name, content) defaults -> read_file name files = None ->
        read_file name (fst (create_default_config config_dir files))
        = Some (json_dump_list content)) /\
    (forall name,
        ~ In name (map fst defaults) ->
        read_file name (fst (create_default_config config_dir files))
        = read_file name files) /\
    create_default_config config_dir
      (fst (create_default_config config_dir files))
    = (fst (create_default_config config_dir files), []).
Proof.
  intros config_dir files. unfold create_default_config.
  split; [| split; [| split]].
  - intros name text H. apply create_defaults_keep. exact H.
  - intros name content Hin Hnone.
    apply (create_defaults_made config_dir defaults defaults_distinct
             (files, []) name content Hin Hnone).
  - intros name Hnot. apply (create_defaults_other config_dir defaults name Hnot).
  - apply create_defaults_present. intros [name content] Hd.
    change (fst (name, content)) with name.
    destruct (read_file name files) as [text |] eqn:E.
    + exists text.
      apply (create_defaults_keep config_dir defaults name text (files, []) E).
    + exists (json_dump_list content).
      apply (create_defaults_made config_dir defaults defaults_distinct
               (files, []) name content Hd E).
Qed.

Example create_default_config_fresh :
  create_default_config "/app/config" [("skip_types.json", "[]")]
  = ([("include_files.json", "[]");
      ("exclude_dirs.json",
       "[" ++ newline ++ "  " ++ quote ++ "anaconda3" ++ quote ++ ","
       ++ newline ++ "  " ++ quote ++ "venv" ++ quote ++ newline ++ "]");
      ("skip_types.json", "[]")],
     ["Created default config: /app/config/exclude_dirs.json";
      "Created default config: /app/config/include_files.json"]).
Proof. reflexivity. Qed.

(** ** A threshold read off a stored size *)

(** X17: a threshold written as the stored size of a file keeps that file
    and every file at least as large.  For exactly held sizes [n <= n'],
    the row of a file of [n'] bytes passes the [WHERE] test against the
    count decoded from the encoding of [n].  A row stored with the
    fallback size ["0B"] passes no positive threshold. *)
Theorem threshold_from_stored_size :
  forall (n n' : Z) (p h : string),
    0 <= n -> n <= n' -> n' < 2 ^ 53 ->
    (exists s s' v,
        human_readable_size n = Return s /\
        human_readable_size n' = Return s' /\
        size_to_bytes s = Return v /\
        size_at_least v (mkFileRecord p h s') = true) /\
    (forall m, 0 < m -> size_at_least m (mkFileRecord p h "0B") = false).
Proof.
  intros n n' p h H0 Hle H53.
  assert (Hp : 2 ^ 53 < 2 ^ 102) by (apply Z.pow_lt_mono_r; lia).
  split.
  - destruct (roundtrip_value n ltac:(lia)) as [s [Hs [Hv _]]].
    destruct (roundtrip_value n' ltac:(lia)) as [s' [Hs' [_ Hq']]].
    exists s, s'. eexists.
    split; [exact Hs |]. split; [exact Hs' |]. split; [exact Hv |].
    unfold size_at_least. simpl size. rewrite Hq'.
    apply Z.leb_le. apply roundtrip_value_mono; assumption.
  - intros m Hm. unfold size_at_least. simpl size.
    change (sql_size_bytes "0B") with (Return (A:=Z) 0).
    apply Z.leb_gt. exact Hm.
Qed.

Lemma threshold_from_stored_size_witness :
  exists s s' v,
    human_readable_size 1536 = Return s /\
    human_readable_size 5000000 = Return s' /\
    size_to_bytes s = Return v /\
    size_at_least v (mkFileRecord "/a" "H" s') = true.
Proof.
  apply (proj1 (threshold_from_stored_size 1536 5000000 "/a" "H"
                  ltac:(lia) ltac:(lia) ltac:(lia))).
Defined.

(** ** Progress lines *)


Lemma progress_invariant_print (line : string) (st : run_state) :
  is_progress line = false ->
  progress_invariant st -> progress_invariant (print line st).
Proof.
  intros Hl [H0 Hc]. unfold progress_invariant, print. simpl.
  rewrite filter_app. simpl. rewrite Hl, List.app_nil_r. split; assumption.
Qed.

Lemma progress_line (n : Z) :
  is_progress ("Processed " ++ str_int n ++ " files...") = true.
Proof. unfold is_progress. apply prefix_self_app. Qed.

Lemma progress_invariant_insert (st : run_state) (r : FileRecord) :
  progress_invariant st ->
  progress_invariant
    (let n := file_count st + 1 in
     let st' := mkState (db st ++ [r]) n (stdout st) in
     if n mod 200 =? 0
     then print ("Processed " ++ str_int n ++ " files...") st'
     else st').
Proof.
  intros [H0 Hc]. cbv zeta.
  pose proof (Z.div_mod (file_count st + 1) 200 ltac:(lia)).
  pose proof (Z.div_mod (file_count st) 200 ltac:(lia)).
  pose proof (Z.mod_pos_bound (file_count st) 200 ltac:(lia)).
  pose proof (Z.mod_pos_bound (file_count st + 1) 200 ltac:(lia)).
  destruct (Z.eqb_spec ((file_count st + 1) mod 200) 0) as [E | E];
    unfold progress_invariant, print; cbn [stdout file_count db].
  - rewrite filter_app, List.length_app.
    change (filter is_progress
              [("Processed " ++ str_int (file_count st + 1) ++ " files...")%string])
      with (if is_progress
                 ("Processed " ++ str_int (file_count st + 1) ++ " files...")
            then [("Processed " ++ str_int (file_count st + 1)
                   ++ " files...")%string]
            else []).
    rewrite progress_line. cbn [List.length].
    split; [lia |]. rewrite Nat2Z.inj_add, Hc. cbn [Z.of_nat]. lia.
  - split; [lia |]. rewrite Hc. lia.
Qed.

Lemma progress_invariant_store (p : string) (st : run_state) (f : file) :
  progress_invariant st -> progress_invariant (store_file p st f).
Proof.
  intros Hinv. destruct (file_read f) as [h | e] eqn:Hr.
  - unfold store_file, hash_file. rewrite Hr.
    assert (Hsame : progress_invariant
                      (mkState (db st) (file_count st) (stdout st ++ [])))
      by (unfold progress_invariant; cbn [stdout file_count];
          rewrite List.app_nil_r; exact Hinv).
    destruct (h =? "")%string; [exact Hsame |].
    apply (progress_invariant_insert _ _ Hsame).
  - rewrite (store_file_error p st f e Hr).
    apply progress_invariant_print; [reflexivity | exact Hinv].
Qed.

Lemma progress_invariant_fold (X : Type) (step : run_state -> X -> run_state)
  (l : list X) :
  (forall st x, progress_invariant st -> progress_invariant (step st x)) ->
  forall st, progress_invariant st -> progress_invariant (fold_left step l st).
Proof.
  intros Hstep. induction l as [| x l IH]; simpl; intros st H; auto.
Qed.

Lemma progress_invariant_entry
  (skip_types exclude_dirs include_files : list string) (verbose : bool)
  (st : run_state) (entry : string * list string * list file) :
  progress_invariant st ->
  progress_invariant
    (index_entry skip_types exclude_dirs include_files verbose st entry).
Proof.
  destruct entry as [[root dirs] files]. intros Hinv. unfold index_entry.
  destruct (existsb _ exclude_dirs); [exact Hinv |].
  apply progress_invariant_fold.
  - intros st' f H. unfold index_file.
    destruct (negb (Nat.eqb (List.length include_files) 0) && _); [exact H |].
    destruct (existsb _ skip_types); [exact H |].
    apply progress_invariant_store. exact H.
  - destruct verbose; [| exact Hinv].
    apply progress_invariant_print; [reflexivity | exact Hinv].
Qed.

(** X18: progress is reported once per two hundred rows.  At the end of a
    run the number of ["Processed ... files..."] lines printed is the
    number of rows inserted divided by 200, rounded down; error lines,
    directory lines and the total do not count. *)
Theorem progress_every_two_hundred :
  forall (base_dir : string) (fs : dirtree) (conn : list FileRecord)
         (skip_types exclude_dirs include_files : list string) (verbose : bool),
    Z.of_nat (List.length
                (filter is_progress
                   (stdout (fst (index_directory base_dir fs conn skip_types
                                   exclude_dirs include_files verbose)))))
    = file_count (fst (index_directory base_dir fs conn skip_types
                                       exclude_dirs include_files verbose))
      / 200.
Proof.
  intros base_dir fs conn skip_types exclude_dirs include_files verbose.
  assert (Hinv : progress_invariant
                   (index_entries skip_types exclude_dirs include_files verbose
                      (os_walk base_dir fs) (mkState conn 0 []))).
  { unfold index_entries. apply progress_invariant_fold.
    - intros st e. apply progress_invariant_entry.
    - split; reflexivity. }
  unfold index_directory. cbn [fst].
  set (st := index_entries skip_types exclude_dirs include_files verbose
               (os_walk base_dir fs) (mkState conn 0 [])) in *.
  exact (proj2 (progress_invariant_print
                  ("Total files processed: " ++ str_int (file_count st)) st
                  eq_refl Hinv)).
Qed.

(** ** Scan, then report *)

Lemma flat_directory_rows (base_dir : string) (files : list file) (h : string) :
  rows_with h (flat_map (file_rows [] [] base_dir) files)
  = map (fun f => row_of base_dir f h) (filter (digest_is h) files).
Proof.
  induction files as [| f files IH]; [reflexivity |].
  simpl flat_map. rewrite rows_with_app, IH. clear IH.
  change (filter (digest_is h) (f :: files))
    with (if digest_is h f then f :: filter (digest_is h) files
          else filter (digest_is h) files).
  unfold file_rows. change (admits [] [] base_dir f) with true. cbv iota.
  destruct (file_read f) as [d | e] eqn:Hr.
  - assert (Hv : digest_is h f = (d =? h)%string && negb (d =? "")%string)
      by (unfold digest_is; rewrite Hr; reflexivity).
    rewrite Hv. destruct (String.eqb_spec d "") as [E | Hne].
    + rewrite andb_false_r. reflexivity.
    + rewrite andb_true_r. unfold rows_with at 1.
      change (filter (fun r => (hash r =? h)%string) [row_of base_dir f d])
        with (if (d =? h)%string then [row_of base_dir f d] else []).
      destruct (String.eqb_spec d h) as [-> | _]; reflexivity.
  - assert (Hv : digest_is h f = false)
      by (unfold digest_is; rewrite Hr; reflexivity).
    rewrite Hv. reflexivity.
Qed.

(** X19: scanning one directory into an empty table with no filters and
    then asking for duplicates reports a hash exactly when at least two
    files of the directory were read with that digest, and lists the full
    paths of exactly those files in listing order; files that could not be
    read take no part. *)
Theorem scan_then_report_flat_directory :
  forall (base_dir : string) (files : list file) (verbose : bool),
  exists groups,
    find_duplicates
      (db (fst (index_directory base_dir (Dir files FNil) [] [] [] []
                                verbose))) None = Return groups /\
    NoDup (map fst groups) /\
    forall h paths,
      In (h, paths) groups <->
      (2 <= List.length (filter (digest_is h) files))%nat /\
      paths = concat newline
                (map (fun f => os_path_join base_dir (file_name f))
                     (filter (digest_is h) files)).
Proof.
  intros base_dir files verbose.
  destruct (index_directory_rows base_dir (Dir files FNil) [] [] [] [] verbose)
    as [Hd _].
  rewrite Hd. eexists. split; [reflexivity |].
  split; [apply select_duplicates_NoDup |].
  intros h paths. rewrite select_duplicates_spec.
  change (walk_rows [] [] [] (os_walk base_dir (Dir files FNil)))
    with (flat_map (file_rows [] [] base_dir) files ++ [])%list.
  rewrite List.app_nil_r. change ([] ++ ?l)%list with l.
  rewrite flat_directory_rows, length_map, map_map. reflexivity.
Qed.

Example scan_then_report_three_files :
  find_duplicates
    (db (fst (index_directory "/d"
                (Dir [mkFile "a.txt" (Digest "H1") (Some 5);
                      mkFile "b.txt" (Digest "H1") (Some 5);
                      mkFile "c.txt" (Digest "H2") (Some 9)] FNil)
                [] [] [] [] false))) None
  = Return [("H1", "/d/a.txt" ++ newline ++ "/d/b.txt")].
Proof. reflexivity. Qed.
